(** * The /models catalog of the Bedrock access gateway

    A shallow embedding of [src/api/routers/model.py]: the two upstream
    listings, their normalisation into canonical model records, the
    identity-based merge, and the process-wide TTL cache in front of it.

    Python integers are unbounded, so they are [Z].  Everything the module
    reads from outside (the wall clock, the answers of the Bedrock control
    plane) is given by an environment of oracles; everything it mutates
    (the [MODELS_CACHE] dictionary) or that an observer can count (clock
    reads, clients created, upstream operations invoked) lives in an
    explicit world threaded through a small state-and-exception monad. *)

From Stdlib Require Import ZArith.
From Stdlib Require QArith.
From stdpp Require Import gmap strings list.

Set Warnings "-clear-no-such-hyp".

Local Open Scope string_scope.
Local Open Scope list_scope.
Local Open Scope Z_scope.

(** ** Data model *)

(** One entry of the [data] list of the response: the dictionary with the
    keys ["id"], ["created"], ["object"] and ["owned_by"]. *)
Record CanonicalModelRecord := mkRecord {
  model_id : string;
  model_created : Z;
  model_object : string;
  model_owned_by : string
}.

(** The payload [{"object": ..., "data": ...}]. *)
Record ModelCatalog := mkCatalog {
  catalog_object : string;
  catalog_data : list CanonicalModelRecord
}.

(** [MODELS_CACHE]: the keys ["data"] (initially [None]) and ["ts"]. *)
Record Cache := mkCache {
  cache_data : option ModelCatalog;
  cache_ts : Z
}.

Definition CACHE_TTL_SECONDS : Z := 300.

(** ** Upstream shapes *)

(** A foundation-model summary, as far as the module looks at it:
    [m.get("modelId")], [None] when the key is missing. *)
Record ModelSummary := mkModelSummary {
  modelId : option string
}.

(** What [s.get("createdAt")] can be: missing, an object with a
    [timestamp()] method (a datetime; we keep the finite float that the
    method returns, as the rational it denotes), or any other object. *)
Inductive CreatedAt :=
| CreatedMissing
| CreatedDatetime (posix : QArith_base.Q)
| CreatedOther (repr : string).

Record InferenceProfileSummary := mkProfileSummary {
  inferenceProfileId : option string;
  inferenceProfileArn : option string;
  createdAt : CreatedAt
}.

(** The response of [list_foundation_models]: [resp.get("modelSummaries", [])]
    falls back to the empty list when the key is missing. *)
Record FoundationModelsResponse := mkFMResponse {
  modelSummaries : option (list ModelSummary)
}.

(** One page of [list_inference_profiles]. *)
Record InferenceProfilesPage := mkPage {
  inferenceProfileSummaries : option (list InferenceProfileSummary)
}.

(** Exceptions: those the upstream client raises from a request, and the
    one its constructor raises when it cannot make a client of its
    arguments. *)
Inductive exn :=
| ClientError (code : string)
| ValueError (message : string).

(** The Bedrock client, seen from the module: what [list_foundation_models()]
    answers, and the pages that iterating the paginator yields, each request
    either delivering a page or raising. *)
Record BedrockClient := mkClient {
  list_foundation_models : exn + FoundationModelsResponse;
  list_inference_profiles : list (exn + InferenceProfilesPage)
}.

(** The operations of the upstream client that the module invokes. *)
Inductive UpstreamCall :=
| CallListFoundationModels
| CallListInferenceProfiles.

Global Instance UpstreamCall_eq_dec : EqDecision UpstreamCall.
Proof. solve_decision. Defined.

(** ** Environment and world *)

(** The oracles: [time_time n] is [int(time.time())] at the [n]-th read of
    the clock by this module, [boto3_client n] the outcome of the [n]-th
    call of [boto3.client(...)]: a client, or the exception raised instead. *)
Record Env := mkEnv {
  time_time : nat -> Z;
  boto3_client : nat -> exn + BedrockClient
}.

(** [client_requests] counts the calls of [boto3.client(...)],
    [clients_built] those that returned a client. *)
Record World := mkWorld {
  MODELS_CACHE : Cache;
  clock_reads : nat;
  client_requests : nat;
  clients_built : nat;
  upstream_calls : list UpstreamCall
}.

(** The module as freshly imported. *)
Definition initial_world : World :=
  {| MODELS_CACHE := {| cache_data := None; cache_ts := 0 |};
     clock_reads := 0;
     client_requests := 0;
     clients_built := 0;
     upstream_calls := [] |}.

(** The ways the world changes: a clock read, a client built, a client
    refused, an upstream operation invoked, a write to the cache. *)
Definition tick (w : World) : World :=
  {| MODELS_CACHE := MODELS_CACHE w;
     clock_reads := S (clock_reads w);
     client_requests := client_requests w;
     clients_built := clients_built w;
     upstream_calls := upstream_calls w |}.

Definition new_client (w : World) : World :=
  {| MODELS_CACHE := MODELS_CACHE w;
     clock_reads := clock_reads w;
     client_requests := S (client_requests w);
     clients_built := S (clients_built w);
     upstream_calls := upstream_calls w |}.

Definition refused (w : World) : World :=
  {| MODELS_CACHE := MODELS_CACHE w;
     clock_reads := clock_reads w;
     client_requests := S (client_requests w);
     clients_built := clients_built w;
     upstream_calls := upstream_calls w |}.

Definition logged (c : UpstreamCall) (w : World) : World :=
  {| MODELS_CACHE := MODELS_CACHE w;
     clock_reads := clock_reads w;
     client_requests := client_requests w;
     clients_built := clients_built w;
     upstream_calls := upstream_calls w ++ [c] |}.

Definition with_cache (c : Cache) (w : World) : World :=
  {| MODELS_CACHE := c;
     clock_reads := clock_reads w;
     client_requests := client_requests w;
     clients_built := clients_built w;
     upstream_calls := upstream_calls w |}.

(** ** The monad: state passing with exceptions

    An exception leaves the world as it was when it was raised. *)
Definition M (A : Type) : Type := World -> (exn + A) * World.

Definition ret {A} (a : A) : M A := fun w => (inr a, w).

Definition raise {A} (e : exn) : M A := fun w => (inl e, w).

Definition bind {A B} (m : M A) (k : A -> M B) : M B :=
  fun w =>
    match m w with
    | (inr a, w') => k a w'
    | (inl e, w') => (inl e, w')
    end.

Notation "x <- m ;; k" := (bind m (fun x => k))
  (at level 100, m at next level, right associativity).
Notation "m ;;; k" := (bind m (fun _ => k))
  (at level 100, right associativity).

Definition get_cache : M Cache := fun w => (inr (MODELS_CACHE w), w).

Definition set_cache (c : Cache) : M unit := fun w => (inr tt, with_cache c w).

(** [MODELS_CACHE["data"] = payload] *)
Definition set_cache_data (payload : ModelCatalog) : M unit :=
  cache <- get_cache ;;
  set_cache {| cache_data := Some payload; cache_ts := cache_ts cache |}.

(** [MODELS_CACHE["ts"] = ts] *)
Definition set_cache_ts (ts : Z) : M unit :=
  cache <- get_cache ;;
  set_cache {| cache_data := cache_data cache; cache_ts := ts |}.

Definition log_call (c : UpstreamCall) : M unit := fun w => (inr tt, logged c w).

(** [lift r]: the outcome of an upstream request. *)
Definition lift {A} (r : exn + A) : M A :=
  match r with
  | inl e => raise e
  | inr a => ret a
  end.

(** ** Python helpers *)

(** Truthiness of a string: only the empty string is falsy. *)
Definition str_truthy (s : string) : bool :=
  match s with
  | EmptyString => false
  | String _ _ => true
  end.

(** Truthiness of [d.get(key)] for a string-valued key: [None] is falsy. *)
Definition get_truthy (v : option string) : bool :=
  match v with
  | None => false
  | Some s => str_truthy s
  end.

(** [len] of the payload dictionary: it has the two keys ["object"] and
    ["data"] whatever the list under ["data"] holds. *)
Definition catalog_len (p : ModelCatalog) : nat := 2.

(** Truthiness of [MODELS_CACHE["data"]]: [None] is falsy, a dictionary is
    truthy when it has at least one key. *)
Definition cache_data_truthy (d : option ModelCatalog) : bool :=
  match d with
  | None => false
  | Some p => negb (Nat.eqb (catalog_len p) 0)
  end.

(** [int(x)] on a finite float: truncation toward zero. *)
Definition int_of_float (x : QArith_base.Q) : Z :=
  Z.quot (QArith_base.Qnum x) (Z.pos (QArith_base.Qden x)).

(** [hasattr(created_at, "timestamp")]. *)
Definition hasattr_timestamp (c : CreatedAt) : bool :=
  match c with
  | CreatedDatetime _ => true
  | CreatedMissing | CreatedOther _ => false
  end.

Section Gateway.

Variable env : Env.

(** ** [_now] and [_bedrock_client] *)

Definition _now : M Z :=
  fun w => (inr (time_time env (clock_reads w)), tick w).

(** [boto3.client(...)] sends nothing to the upstream, and either returns
    a client or raises (on a region it cannot make an endpoint of, for
    one); what it is called with comes from the process environment and is
    part of what the oracle stands for. *)
Definition _bedrock_client : M BedrockClient :=
  fun w =>
    match boto3_client env (client_requests w) with
    | inr client => (inr client, new_client w)
    | inl e => (inl e, refused w)
    end.

(** ** [_list_foundation_models] *)

(** The body of the [for m in ...] loop, [out] being the list built so far. *)
Fixpoint foundation_models_loop
    (ms : list ModelSummary) (out : list CanonicalModelRecord)
    : M (list CanonicalModelRecord) :=
  match ms with
  | [] => ret out
  | m :: ms' =>
      match modelId m with
      | Some mid =>
          if str_truthy mid then
            now <- _now ;;
            foundation_models_loop ms'
              (out ++ [ {| model_id := mid;
                           model_created := now;
                           model_object := "model";
                           model_owned_by := "bedrock" |} ])
          else foundation_models_loop ms' out
      | None => foundation_models_loop ms' out
      end
  end.

Definition _list_foundation_models (client : BedrockClient)
    : M (list CanonicalModelRecord) :=
  log_call CallListFoundationModels ;;;
  resp <- lift (list_foundation_models client) ;;
  foundation_models_loop (default [] (modelSummaries resp)) [].

(** ** [_list_cross_region_profiles] *)

(** [created_ts] of one summary. *)
Definition created_ts_of (created_at : CreatedAt) : M Z :=
  match created_at with
  | CreatedDatetime posix => ret (int_of_float posix)
  | CreatedMissing | CreatedOther _ => _now
  end.

(** The two conditional appends of the inner loop body. *)
Definition append_profile_entries
    (pid arn : option string) (created_ts : Z)
    (out : list CanonicalModelRecord) : list CanonicalModelRecord :=
  let out1 :=
    match pid with
    | Some p =>
        if str_truthy p then
          out ++ [ {| model_id := p;
                      model_created := created_ts;
                      model_object := "model";
                      model_owned_by := "bedrock" |} ]
        else out
    | None => out
    end in
  match arn with
  | Some a =>
      if str_truthy a then
        out1 ++ [ {| model_id := a;
                     model_created := created_ts;
                     model_object := "model";
                     model_owned_by := "bedrock" |} ]
      else out1
  | None => out1
  end.

(** The inner loop, over the summaries of one page. *)
Fixpoint profile_summaries_loop
    (ss : list InferenceProfileSummary) (out : list CanonicalModelRecord)
    : M (list CanonicalModelRecord) :=
  match ss with
  | [] => ret out
  | s :: ss' =>
      created_ts <- created_ts_of (createdAt s) ;;
      profile_summaries_loop ss'
        (append_profile_entries
           (inferenceProfileId s) (inferenceProfileArn s) created_ts out)
  end.

(** The outer loop, over the pages the paginator yields; a request that
    raises ends the walk with that exception. *)
Fixpoint profile_pages_loop
    (pages : list (exn + InferenceProfilesPage))
    (out : list CanonicalModelRecord) : M (list CanonicalModelRecord) :=
  match pages with
  | [] => ret out
  | inl e :: _ => raise e
  | inr page :: pages' =>
      out' <- profile_summaries_loop
                (default [] (inferenceProfileSummaries page)) out ;;
      profile_pages_loop pages' out'
  end.

Definition _list_cross_region_profiles (client : BedrockClient)
    : M (list CanonicalModelRecord) :=
  log_call CallListInferenceProfiles ;;;
  profile_pages_loop (list_inference_profiles client) [].

(** ** [_build_models_payload] *)

(** The merge loop: [seen] is the set of ids met so far, [data] the list
    kept so far. *)
Fixpoint merge_loop
    (items : list CanonicalModelRecord) (seen : gset string)
    (data : list CanonicalModelRecord) : list CanonicalModelRecord :=
  match items with
  | [] => data
  | item :: items' =>
      if decide (model_id item ∈ seen) then merge_loop items' seen data
      else merge_loop items' ({[ model_id item ]} ∪ seen) (data ++ [item])
  end.

(** Lines 92 to 107: the recomputation once the cache has been passed by. *)
Definition recompute : M ModelCatalog :=
  client <- _bedrock_client ;;
  fm_entries <- _list_foundation_models client ;;
  xreg_entries <- _list_cross_region_profiles client ;;
  let data := merge_loop (fm_entries ++ xreg_entries) ∅ [] in
  let payload := {| catalog_object := "list"; catalog_data := data |} in
  set_cache_data payload ;;;
  now <- _now ;;
  set_cache_ts now ;;;
  ret payload.

(** The whole function.  The condition is evaluated left to right and
    short-circuits: the clock is read only for a non-forced call that finds
    a truthy payload. *)
Definition _build_models_payload (force_refresh : bool) : M ModelCatalog :=
  if negb force_refresh then
    cache <- get_cache ;;
    match cache_data cache with
    | Some payload =>
        if cache_data_truthy (cache_data cache) then
          now <- _now ;;
          if now - cache_ts cache <? CACHE_TTL_SECONDS then ret payload
          else recompute
        else recompute
    | None => recompute
    end
  else recompute.

(** ** Vocabulary of the properties *)

(** The condition of lines 85 to 89, read off the world the call starts in. *)
Definition cache_hit (force_refresh : bool) (w : World) : bool :=
  negb force_refresh
  && cache_data_truthy (cache_data (MODELS_CACHE w))
  && (time_time env (clock_reads w) - cache_ts (MODELS_CACHE w)
      <? CACHE_TTL_SECONDS).

(** The world in which line 92 starts when the cache is passed by: the
    condition has read the clock if and only if it got to its third
    conjunct. *)
Definition recompute_start (force_refresh : bool) (w : World) : World :=
  if negb force_refresh && cache_data_truthy (cache_data (MODELS_CACHE w))
  then tick w else w.

(** A history of the process: the successive calls, each with its flag,
    from the freshly imported module.  Next to the world we keep what the
    last successful recomputation produced and the clock value it stored;
    a call has recomputed when it has invoked the upstream. *)
Definition History : Type := World * option (ModelCatalog * Z).

Definition step (h : History) (force_refresh : bool) : History :=
  let '(w, last) := h in
  let '(r, w') := _build_models_payload force_refresh w in
  (w',
   match r with
   | inr payload =>
       if decide (upstream_calls w' = upstream_calls w) then last
       else Some (payload, time_time env (pred (clock_reads w')))
   | inl _ => last
   end).

Definition run (calls : list bool) : History :=
  fold_left step calls (initial_world, None).

End Gateway.

(** [has_id i r]: the record [r] carries the id [i]. *)
Definition has_id (i : string) (r : CanonicalModelRecord) : bool :=
  bool_decide (model_id r = i).

Definition ids (rs : list CanonicalModelRecord) : list string :=
  model_id <$> rs.

(** The ids a field contributes: itself when truthy, nothing otherwise. *)
Definition usable (v : option string) : list string :=
  if get_truthy v then [default "" v] else [].

Definition base_ids (ms : list ModelSummary) : list string :=
  flat_map (fun m => usable (modelId m)) ms.

Definition profile_ids (ss : list InferenceProfileSummary) : list string :=
  flat_map
    (fun s => usable (inferenceProfileId s) ++ usable (inferenceProfileArn s))
    ss.

(** The exception, if any, that ends the walk over the pages. *)
Fixpoint paginate_error (pages : list (exn + InferenceProfilesPage))
    : option exn :=
  match pages with
  | [] => None
  | inl e :: _ => Some e
  | inr _ :: pages' => paginate_error pages'
  end.

(** The summaries of the pages delivered before the walk ends. *)
Fixpoint paginate_summaries (pages : list (exn + InferenceProfilesPage))
    : list InferenceProfileSummary :=
  match pages with
  | [] => []
  | inl _ :: _ => []
  | inr page :: pages' =>
      default [] (inferenceProfileSummaries page) ++ paginate_summaries pages'
  end.

(** What one profile summary appends, given its [created_ts]. *)
Definition profile_entries (s : InferenceProfileSummary) (created_ts : Z)
    : list CanonicalModelRecord :=
  (fun i => mkRecord i created_ts "model" "bedrock")
    <$> (usable (inferenceProfileId s) ++ usable (inferenceProfileArn s)).

(** What a listing may change of the world: the clock reads only. *)
Definition only_clock (w w' : World) : Prop :=
  MODELS_CACHE w' = MODELS_CACHE w
  /\ client_requests w' = client_requests w
  /\ clients_built w' = clients_built w
  /\ upstream_calls w' = upstream_calls w.

(** ** Concrete upstreams *)

(** A clock that starts at [start] and advances by [pace] seconds between
    two consecutive reads. *)
Definition clock_from (start pace : Z) : nat -> Z :=
  fun n => start + pace * Z.of_nat n.

(** An environment that hands out the clients of [clients] in turn, and
    [last] ever after. *)
Definition env_of (clock : nat -> Z) (clients : list BedrockClient)
    (last : BedrockClient) : Env :=
  {| time_time := clock; boto3_client := fun n => inr (nth n clients last) |}.

(** An environment in which [boto3.client] raises the first [refusals]
    times it is called and returns [client] from then on. *)
Definition env_refusing (clock : nat -> Z) (refusals : nat)
    (client : BedrockClient) : Env :=
  {| time_time := clock;
     boto3_client :=
       fun n =>
         if (n <? refusals)%nat
         then inl (ValueError "Invalid endpoint: https://bedrock..amazonaws.com")
         else inr client |}.

(** One foundation model and one cross-region profile with its ARN. *)
Definition claude_client : BedrockClient :=
  {| list_foundation_models :=
       inr {| modelSummaries := Some [ {| modelId := Some "claude-v2" |} ] |};
     list_inference_profiles :=
       [ inr {| inferenceProfileSummaries :=
                  Some [ {| inferenceProfileId := Some "us.claude-v2";
                            inferenceProfileArn :=
                              Some "arn:aws:...:us.claude-v2";
                            createdAt := CreatedMissing |} ] |} ] |}.

(** The catalog expected from it, the foundation model having been stamped
    at [t0] and the profile at [t1]. *)
Definition claude_catalog (t0 t1 : Z) : ModelCatalog :=
  {| catalog_object := "list";
     catalog_data :=
       [ mkRecord "claude-v2" t0 "model" "bedrock";
         mkRecord "us.claude-v2" t1 "model" "bedrock";
         mkRecord "arn:aws:...:us.claude-v2" t1 "model" "bedrock" ] |}.

(** That upstream, with a clock started at 1000. *)
Definition claude_env (pace : Z) : Env :=
  env_of (clock_from 1000 pace) [] claude_client.

(** An upstream that throttles the first request it gets. *)
Definition throttled_client : BedrockClient :=
  {| list_foundation_models := inl (ClientError "ThrottlingException");
     list_inference_profiles := [] |}.

(** An upstream whose second page of profiles cannot be fetched. *)
Definition broken_page_client : BedrockClient :=
  {| list_foundation_models :=
       inr {| modelSummaries := Some [ {| modelId := Some "claude-v2" |} ] |};
     list_inference_profiles :=
       [ inr {| inferenceProfileSummaries := Some [] |};
         inl (ClientError "ServiceUnavailableException") ] |}.

(** Listings with repeated ids: a foundation model listed twice, a profile
    whose id is also a foundation model id, and an ARN listed twice. *)
Definition colliding_client : BedrockClient :=
  {| list_foundation_models :=
       inr {| modelSummaries :=
                Some [ {| modelId := Some "titan" |};
                       {| modelId := Some "titan" |};
                       {| modelId := Some "nova" |} ] |};
     list_inference_profiles :=
       [ inr {| inferenceProfileSummaries :=
                  Some [ {| inferenceProfileId := Some "nova";
                            inferenceProfileArn := Some "arn:nova";
                            createdAt :=
                              CreatedDatetime
                                (QArith_base.Qmake 3400000001 2) |} ] |};
         inr {| inferenceProfileSummaries :=
                  Some [ {| inferenceProfileId := Some "us.titan";
                            inferenceProfileArn := Some "arn:nova";
                            createdAt := CreatedOther "n/a" |} ] |} ] |}.

(** Listings that hold nothing usable. *)
Definition barren_client : BedrockClient :=
  {| list_foundation_models :=
       inr {| modelSummaries :=
                Some [ {| modelId := None |}; {| modelId := Some "" |} ] |};
     list_inference_profiles :=
       [ inr {| inferenceProfileSummaries := None |};
         inr {| inferenceProfileSummaries :=
                  Some [ {| inferenceProfileId := Some "";
                            inferenceProfileArn := None;
                            createdAt := CreatedMissing |} ] |} ] |}.

(** ** The rest of the module *)

(** [os.getenv(key, default)], the process environment being a map from
    names to strings: the value under [key] when there is one, whatever it
    is, and [fallback] otherwise. *)
Definition os_getenv (environ : gmap string string) (key fallback : string)
    : string :=
  default fallback (environ !! key).

(** What [_bedrock_client] passes to [boto3.client]: the service name, the
    region and the retry configuration. *)
Record ClientArgs := mkClientArgs {
  service_name : string;
  region_name : string;
  retries_max_attempts : Z;
  retries_mode : string
}.

Definition _bedrock_client_args (environ : gmap string string) : ClientArgs :=
  let region :=
    os_getenv environ "AWS_REGION"
      (os_getenv environ "AWS_DEFAULT_REGION" "us-east-1") in
  {| service_name := "bedrock";
     region_name := region;
     retries_max_attempts := 5;
     retries_mode := "standard" |}.

(** The route [GET /models]; [refresh] is the query parameter, [False]
    when the request does not carry it. *)
Definition list_models (env : Env) (refresh : bool) : M ModelCatalog :=
  _build_models_payload env refresh.

(** The process answering requests one after the other.  An exception is
    the answer to the request that met it; the process goes on with the
    world that request left. *)
Fixpoint serve (env : Env) (requests : list bool) (w : World)
    : list (exn + ModelCatalog) * World :=
  match requests with
  | [] => ([], w)
  | refresh :: requests' =>
      let '(r, w1) := list_models env refresh w in
      let '(rs, w2) := serve env requests' w1 in
      (r :: rs, w2)
  end.

(** [n] reads of the clock. *)
Definition ticks (n : nat) (w : World) : World := Nat.iter n tick w.

(** A record as the listings build them. *)
Definition well_formed_record (r : CanonicalModelRecord) : Prop :=
  model_id r <> "" /\ model_object r = "model" /\ model_owned_by r = "bedrock".

Definition well_formed_catalog (p : ModelCatalog) : Prop :=
  catalog_object p = "list"
  /\ NoDup (ids (catalog_data p))
  /\ Forall well_formed_record (catalog_data p).

(** The cache holds nothing but a well-formed catalog. *)
Definition cache_well_formed (w : World) : Prop :=
  forall payload,
    cache_data (MODELS_CACHE w) = Some payload -> well_formed_catalog payload.

(** A clock that never runs backwards. *)
Definition clock_monotone (env : Env) : Prop :=
  forall a b : nat, (a <= b)%nat -> time_time env a <= time_time env b.

(** The summaries whose [createdAt] makes the loop read the clock. *)
Definition clock_stamped (ss : list InferenceProfileSummary)
    : list InferenceProfileSummary :=
  filter (fun s => hasattr_timestamp (createdAt s) = false) ss.

(** The whole seconds of a time-like [createdAt]. *)
Definition posix_seconds (c : CreatedAt) : Z :=
  match c with
  | CreatedDatetime posix => int_of_float posix
  | CreatedMissing | CreatedOther _ => 0
  end.

(** What one call may leave in the upstream log. *)
Definition call_block (b : list UpstreamCall) : Prop :=
  b = [CallListFoundationModels]
  \/ b = [CallListFoundationModels; CallListInferenceProfiles].

(** * Properties *)

(** ** The merge loop *)

Lemma merge_loop_acc items : forall seen data,
  merge_loop items seen data = data ++ merge_loop items seen [].
Proof.
  induction items as [|item items IH]; intros seen data; simpl.
  - by rewrite app_nil_r.
  - case_decide; [apply IH|].
    rewrite IH, (IH _ ([] ++ [item])). by rewrite <- app_assoc.
Qed.

Lemma merge_loop_cons item items seen :
  merge_loop (item :: items) seen [] =
  if decide (model_id item ∈ seen) then merge_loop items seen []
  else item :: merge_loop items ({[ model_id item ]} ∪ seen) [].
Proof. simpl. case_decide; [done|]. by rewrite merge_loop_acc. Qed.

Lemma merge_loop_elem items : forall seen r,
  r ∈ merge_loop items seen [] -> r ∈ items /\ model_id r ∉ seen.
Proof.
  induction items as [|item items IH]; intros seen r.
  - simpl. by intros ?%elem_of_nil.
  - rewrite merge_loop_cons. case_decide as Hin.
    + intros [? ?]%IH. split; [by right|done].
    + intros [->|[? ?]%IH]%elem_of_cons; [split; [by left|done]|].
      split; [by right|set_solver].
Qed.

Lemma merge_loop_NoDup items : forall seen,
  NoDup (ids (merge_loop items seen [])).
Proof.
  unfold ids.
  induction items as [|item items IH]; intros seen.
  - simpl. constructor.
  - rewrite merge_loop_cons. case_decide as Hin; [apply IH|].
    rewrite fmap_cons. constructor; [|apply IH].
    intros (r & Heq & [_ Hr]%merge_loop_elem)%list_elem_of_fmap.
    set_solver.
Qed.

Lemma merge_loop_sublist items : forall seen,
  sublist (merge_loop items seen []) items.
Proof.
  induction items as [|item items IH]; intros seen.
  - simpl. constructor.
  - rewrite merge_loop_cons. case_decide.
    + by apply sublist_cons.
    + by apply sublist_skip.
Qed.

Lemma merge_loop_find items : forall seen i,
  find (has_id i) (merge_loop items seen []) =
  if decide (i ∈ seen) then None else find (has_id i) items.
Proof.
  induction items as [|item items IH]; intros seen i.
  - simpl. by case_decide.
  - rewrite merge_loop_cons. unfold has_id at 2. simpl.
    destruct (decide (model_id item ∈ seen)) as [Hin|Hin].
    + rewrite IH. case_decide; [done|].
      case_bool_decide; [congruence|done].
    + simpl. unfold has_id at 1. case_bool_decide as Hi.
      * subst i. by rewrite decide_False.
      * rewrite IH. repeat case_decide; try done; set_solver.
Qed.

Lemma merge_loop_seen items : forall seen extra,
  merge_loop items (extra ∪ seen) [] =
  filter (fun r => model_id r ∉ extra) (merge_loop items seen []).
Proof.
  induction items as [|item items IH]; intros seen extra.
  - done.
  - rewrite !merge_loop_cons.
    destruct (decide (model_id item ∈ seen)) as [Hin|Hin].
    + rewrite decide_True by set_solver. apply IH.
    + destruct (decide (model_id item ∈ extra)) as [Hex|Hex].
      * rewrite decide_True by set_solver.
        rewrite filter_cons_False by (by intros ?).
        rewrite <- IH. f_equal. set_solver.
      * rewrite decide_False by set_solver.
        rewrite filter_cons_True by done. f_equal.
        rewrite <- IH. f_equal. set_solver.
Qed.

Lemma merge_loop_app A : forall B seen,
  merge_loop (A ++ B) seen [] =
  merge_loop A seen [] ++ merge_loop B (list_to_set (ids A) ∪ seen) [].
Proof.
  unfold ids.
  induction A as [|a A IH]; intros B seen.
  - simpl. f_equal. set_solver.
  - rewrite <- app_comm_cons, !merge_loop_cons. case_decide as Hin.
    + rewrite IH. f_equal. f_equal. set_solver.
    + rewrite IH. simpl. f_equal. f_equal. f_equal. set_solver.
Qed.

Lemma app_cons_neq {A} (l l' : list A) x : l ++ x :: l' <> l.
Proof.
  intros Heq. apply (f_equal length) in Heq.
  rewrite length_app in Heq. simpl in Heq. lia.
Qed.

Lemma find_app_first {A} (f : A -> bool) (l1 l2 : list A) :
  find f (l1 ++ l2)
  = match find f l1 with
    | Some x => Some x
    | None => find f l2
    end.
Proof.
  induction l1 as [|x l1 IH]; simpl; [done|]. by destruct (f x).
Qed.

Lemma filter_all {A} (P : A -> Prop) `{forall x, Decision (P x)} (l : list A) :
  (forall x, x ∈ l -> P x) -> filter P l = l.
Proof.
  induction l as [|x l IH]; intros Hall; [done|].
  rewrite filter_cons_True by (apply Hall; left).
  f_equal. apply IH. intros y Hy. apply Hall. by right.
Qed.

(** Under ids without repetition an id that occurs occurs once. *)
Lemma NoDup_ids_once (l : list CanonicalModelRecord) r :
  NoDup (ids l) -> r ∈ l ->
  length (filter (fun x => model_id x = model_id r) l) = 1%nat.
Proof.
  unfold ids. induction l as [|x l IH]; intros Hnd Hin.
  - by apply elem_of_nil in Hin.
  - rewrite fmap_cons in Hnd. apply NoDup_cons in Hnd as [Hhd Hnd].
    apply elem_of_cons in Hin as [->|Hin].
    + rewrite filter_cons_True by done. simpl. f_equal.
      destruct (filter _ l) as [|y ?] eqn:Hflt; [done|]. exfalso.
      assert (Hy : y ∈ filter (fun x0 => model_id x0 = model_id x) l)
        by (rewrite Hflt; left).
      apply list_elem_of_filter in Hy as [Heq Hy].
      apply Hhd, list_elem_of_fmap. by exists y.
    + rewrite filter_cons_False; [by apply IH|].
      intros Heq. apply Hhd, list_elem_of_fmap. by exists r.
Qed.

(** Without a repeated id the loop keeps everything. *)
Lemma merge_loop_id items : forall seen,
  NoDup (ids items) ->
  (forall i, i ∈ ids items -> i ∉ seen) ->
  merge_loop items seen [] = items.
Proof.
  unfold ids.
  induction items as [|item items IH]; intros seen Hnd Hfresh; [done|].
  rewrite fmap_cons in Hnd. apply NoDup_cons in Hnd as [Hhd Hnd].
  rewrite merge_loop_cons, decide_False by (apply Hfresh; simpl; left).
  f_equal. apply IH; [done|].
  intros i Hi. specialize (Hfresh i).
  rewrite fmap_cons in Hfresh. set_solver.
Qed.

(** ** The listings *)

Lemma only_clock_refl w : only_clock w w.
Proof. by repeat split. Qed.

Lemma only_clock_tick w : only_clock w (tick w).
Proof. by repeat split. Qed.

Lemma only_clock_trans w1 w2 w3 :
  only_clock w1 w2 -> only_clock w2 w3 -> only_clock w1 w3.
Proof.
  unfold only_clock. intros (?&?&?&?) (?&?&?&?). repeat split; congruence.
Qed.

#[local] Hint Resolve only_clock_refl only_clock_tick : core.

Lemma usable_falsy v : get_truthy v = false -> usable v = [].
Proof. unfold usable. by intros ->. Qed.

Lemma usable_truthy s : str_truthy s = true -> usable (Some s) = [s].
Proof. unfold usable. simpl. by intros ->. Qed.

Section Listings.

Variable env : Env.

(** The loop over the foundation models never raises, touches nothing but
    the clock, and appends one record per truthy [modelId], in order. *)
Lemma foundation_models_loop_spec ms : forall out w,
  exists recs w',
    foundation_models_loop env ms out w = (inr (out ++ recs), w')
    /\ only_clock w w'
    /\ ids recs = base_ids ms.
Proof.
  induction ms as [|m ms IH]; intros out w.
  - exists [], w. simpl. rewrite app_nil_r. auto.
  - cbn [foundation_models_loop base_ids flat_map].
    destruct (modelId m) as [mid|] eqn:Hmid.
    + destruct (str_truthy mid) eqn:Htr.
      * unfold bind, _now.
        destruct (IH (out ++ [mkRecord mid (time_time env (clock_reads w))
                                "model" "bedrock"]) (tick w))
          as (recs & w' & Hrun & Hfr & Hids).
        eexists (_ :: recs), w'. rewrite Hrun, <- app_assoc.
        split; [done|]. split; [by eapply only_clock_trans|].
        rewrite usable_truthy by done. unfold ids in *.
        rewrite fmap_cons. simpl. f_equal. exact Hids.
      * destruct (IH out w) as (recs & w' & Hrun & Hfr & Hids).
        exists recs, w'. rewrite usable_falsy by (simpl; done). auto.
    + destruct (IH out w) as (recs & w' & Hrun & Hfr & Hids).
      exists recs, w'. rewrite usable_falsy by done. auto.
Qed.

Lemma append_profile_entries_spec s created_ts out :
  append_profile_entries
    (inferenceProfileId s) (inferenceProfileArn s) created_ts out
  = out ++ profile_entries s created_ts.
Proof.
  unfold append_profile_entries, profile_entries, usable.
  destruct (inferenceProfileId s) as [p|], (inferenceProfileArn s) as [a|];
    simpl; repeat case_match; simpl;
    rewrite <- ?app_assoc, ?app_nil_r; done.
Qed.

Lemma created_ts_of_spec c w :
  exists ts w', created_ts_of env c w = (inr ts, w') /\ only_clock w w'.
Proof. destruct c; simpl; eauto. Qed.

Lemma profile_summaries_loop_spec ss : forall out w,
  exists recs w',
    profile_summaries_loop env ss out w = (inr (out ++ recs), w')
    /\ only_clock w w'
    /\ ids recs = profile_ids ss.
Proof.
  induction ss as [|s ss IH]; intros out w.
  - exists [], w. simpl. rewrite app_nil_r. auto.
  - cbn [profile_summaries_loop profile_ids flat_map]. unfold bind.
    destruct (created_ts_of_spec (createdAt s) w) as (ts & w1 & -> & Hfr1).
    rewrite append_profile_entries_spec.
    destruct (IH (out ++ profile_entries s ts) w1)
      as (recs & w' & Hrun & Hfr & Hids).
    exists (profile_entries s ts ++ recs), w'.
    rewrite Hrun, <- app_assoc.
    split; [done|]. split; [by eapply only_clock_trans|].
    unfold ids in *. rewrite fmap_app, Hids. f_equal.
    unfold profile_entries. rewrite <- list_fmap_compose.
    apply list_fmap_id.
Qed.

(** The walk over the pages ends with the first request that raises, and
    otherwise appends what every page contributes, in page order. *)
Lemma profile_pages_loop_spec pages : forall out w,
  match paginate_error pages with
  | Some e =>
      exists w', profile_pages_loop env pages out w = (inl e, w')
                 /\ only_clock w w'
  | None =>
      exists recs w',
        profile_pages_loop env pages out w = (inr (out ++ recs), w')
        /\ only_clock w w'
        /\ ids recs = profile_ids (paginate_summaries pages)
  end.
Proof.
  induction pages as [|[e|page] pages IH]; intros out w.
  - exists [], w. simpl. rewrite app_nil_r. auto.
  - simpl. exists w. auto.
  - cbn [paginate_error paginate_summaries profile_pages_loop]. unfold bind.
    destruct (profile_summaries_loop_spec
                (default [] (inferenceProfileSummaries page)) out w)
      as (recs1 & w1 & -> & Hfr1 & Hids1).
    specialize (IH (out ++ recs1) w1).
    destruct (paginate_error pages) as [e|].
    + destruct IH as (w' & -> & Hfr). exists w'.
      split; [done|]. by eapply only_clock_trans.
    + destruct IH as (recs & w' & -> & Hfr & Hids).
      exists (recs1 ++ recs), w'. rewrite <- app_assoc.
      split; [done|]. split; [by eapply only_clock_trans|].
      unfold ids, profile_ids in *.
      by rewrite fmap_app, flat_map_app, Hids1, Hids.
Qed.

End Listings.

(** ** The two listing functions and the recomputation *)

Section Recompute.

Variable env : Env.

Lemma list_foundation_models_spec client w :
  match list_foundation_models client with
  | inl e =>
      _list_foundation_models env client w
      = (inl e, logged CallListFoundationModels w)
  | inr resp =>
      exists fm w',
        _list_foundation_models env client w = (inr fm, w')
        /\ only_clock (logged CallListFoundationModels w) w'
        /\ ids fm = base_ids (default [] (modelSummaries resp))
  end.
Proof.
  unfold _list_foundation_models, bind, log_call.
  destruct (list_foundation_models client) as [e|resp]; simpl; [done|].
  destruct (foundation_models_loop_spec env
              (default [] (modelSummaries resp)) []
              (logged CallListFoundationModels w))
    as (recs & w' & Hrun & Hfr & Hids).
  exists recs, w'. by rewrite Hrun.
Qed.

Lemma list_cross_region_profiles_spec client w :
  match paginate_error (list_inference_profiles client) with
  | Some e =>
      exists w',
        _list_cross_region_profiles env client w = (inl e, w')
        /\ only_clock (logged CallListInferenceProfiles w) w'
  | None =>
      exists xreg w',
        _list_cross_region_profiles env client w = (inr xreg, w')
        /\ only_clock (logged CallListInferenceProfiles w) w'
        /\ ids xreg
           = profile_ids (paginate_summaries (list_inference_profiles client))
  end.
Proof.
  unfold _list_cross_region_profiles, bind, log_call.
  pose proof (profile_pages_loop_spec env (list_inference_profiles client) []
                (logged CallListInferenceProfiles w)) as Hspec.
  destruct (paginate_error (list_inference_profiles client)) as [e|].
  - destruct Hspec as (w' & Hrun & Hfr). exists w'. by rewrite Hrun.
  - destruct Hspec as (recs & w' & Hrun & Hfr & Hids).
    exists recs, w'. by rewrite Hrun.
Qed.

(** Lines 92 to 107 once the client is there and the two listings have
    returned. *)
Lemma recompute_with_listings w client fm w1 xreg w2 :
  boto3_client env (client_requests w) = inr client ->
  _list_foundation_models env client (new_client w) = (inr fm, w1) ->
  _list_cross_region_profiles env client w1 = (inr xreg, w2) ->
  recompute env w
  = (inr {| catalog_object := "list";
            catalog_data := merge_loop (fm ++ xreg) ∅ [] |},
     with_cache
       {| cache_data :=
            Some {| catalog_object := "list";
                    catalog_data := merge_loop (fm ++ xreg) ∅ [] |};
          cache_ts := time_time env (clock_reads w2) |}
       (tick w2)).
Proof.
  intros Hclient Hfm Hxr. unfold recompute, bind, _bedrock_client.
  by rewrite Hclient, Hfm, Hxr.
Qed.

(** A client that cannot be built ends the recomputation at once. *)
Lemma recompute_refused w e :
  boto3_client env (client_requests w) = inl e ->
  recompute env w = (inl e, refused w).
Proof.
  intros Hclient. unfold recompute, bind, _bedrock_client.
  by rewrite Hclient.
Qed.

(** The three ways lines 93 to 107 can go once the client is there. *)
Lemma recompute_spec w client :
  boto3_client env (client_requests w) = inr client ->
  match list_foundation_models client with
  | inl e =>
      exists w',
        recompute env w = (inl e, w')
        /\ MODELS_CACHE w' = MODELS_CACHE w
        /\ clients_built w' = S (clients_built w)
        /\ upstream_calls w'
           = upstream_calls w ++ [CallListFoundationModels]
  | inr resp =>
      exists fm w2,
        _list_foundation_models env client (new_client w) = (inr fm, w2)
        /\ ids fm = base_ids (default [] (modelSummaries resp))
        /\ match paginate_error (list_inference_profiles client) with
           | Some e =>
               exists w',
                 recompute env w = (inl e, w')
                 /\ MODELS_CACHE w' = MODELS_CACHE w
                 /\ clients_built w' = S (clients_built w)
                 /\ upstream_calls w'
                    = upstream_calls w
                      ++ [CallListFoundationModels; CallListInferenceProfiles]
           | None =>
               exists xreg w3,
                 _list_cross_region_profiles env client w2 = (inr xreg, w3)
                 /\ ids xreg
                    = profile_ids
                        (paginate_summaries (list_inference_profiles client))
                 /\ clients_built w3 = S (clients_built w)
                 /\ upstream_calls w3
                    = upstream_calls w
                      ++ [CallListFoundationModels; CallListInferenceProfiles]
                 /\ let payload :=
                      {| catalog_object := "list";
                         catalog_data := merge_loop (fm ++ xreg) ∅ [] |} in
                    recompute env w
                    = (inr payload,
                       with_cache
                         {| cache_data := Some payload;
                            cache_ts := time_time env (clock_reads w3) |}
                         (tick w3))
           end
  end.
Proof.
  intros Hclient.
  pose proof (list_foundation_models_spec client (new_client w)) as Hfm.
  assert (Hstart : recompute env w
    = match _list_foundation_models env client (new_client w) with
      | (inr fm, w2) =>
          match _list_cross_region_profiles env client w2 with
          | (inr xreg, w3) =>
              let payload :=
                {| catalog_object := "list";
                   catalog_data := merge_loop (fm ++ xreg) ∅ [] |} in
              (inr payload,
               with_cache
                 {| cache_data := Some payload;
                    cache_ts := time_time env (clock_reads w3) |}
                 (tick w3))
          | (inl e, w3) => (inl e, w3)
          end
      | (inl e, w2) => (inl e, w2)
      end).
  { unfold recompute, bind, _bedrock_client. rewrite Hclient.
    destruct (_list_foundation_models env client (new_client w))
      as [[e|fm] w2]; [done|].
    destruct (_list_cross_region_profiles env client w2)
      as [[e|xreg] w3]; done. }
  rewrite Hstart. clear Hstart.
  destruct (list_foundation_models client) as [e|resp].
  - rewrite Hfm. eexists. split; [done|]. by simpl.
  - destruct Hfm as (fm & w2 & Hfm & (Hc2 & _ & Hb2 & Hu2) & Hids).
    exists fm, w2. split; [done|]. split; [done|]. rewrite Hfm.
    pose proof (list_cross_region_profiles_spec client w2) as Hxr.
    destruct (paginate_error (list_inference_profiles client)) as [e|].
    + destruct Hxr as (w' & Hxr & (Hc3 & _ & Hb3 & Hu3)).
      rewrite Hxr. exists w'. split; [done|].
      simpl in *. rewrite Hc3, Hc2, Hb3, Hb2, Hu3, Hu2, <- app_assoc.
      done.
    + destruct Hxr as (xreg & w3 & Hxr & (Hc3 & _ & Hb3 & Hu3) & Hidsx).
      exists xreg, w3. split; [done|]. split; [done|].
      simpl in *. rewrite Hb3, Hb2, Hu3, Hu2, <- app_assoc.
      split; [done|]. split; [done|].
      rewrite Hxr. reflexivity.
Qed.

(** A recomputation that returns has got its client and both listings. *)
Lemma recompute_returns w payload w' :
  recompute env w = (inr payload, w') ->
  exists client fm w1 xreg w2,
    boto3_client env (client_requests w) = inr client
    /\ _list_foundation_models env client (new_client w) = (inr fm, w1)
    /\ _list_cross_region_profiles env client w1 = (inr xreg, w2)
    /\ payload = {| catalog_object := "list";
                    catalog_data := merge_loop (fm ++ xreg) ∅ [] |}
    /\ w' = with_cache
              {| cache_data := Some payload;
                 cache_ts := time_time env (clock_reads w2) |}
              (tick w2).
Proof.
  unfold recompute, bind, _bedrock_client.
  destruct (boto3_client env (client_requests w)) as [e|client]; [done|].
  destruct (_list_foundation_models env client (new_client w))
    as [[e|fm] w1] eqn:Hfm; [done|].
  destruct (_list_cross_region_profiles env client w1)
    as [[e|xreg] w2] eqn:Hxr; [done|].
  simpl. intros [= <- <-]. by exists client, fm, w1, xreg, w2.
Qed.

(** Whatever happens, the recomputation asks for a client, once; what it
    adds to the upstream log is nothing when the client is refused, and
    otherwise starts with the foundation-model listing. *)
Lemma recompute_requests w :
  client_requests (snd (recompute env w)) = S (client_requests w).
Proof.
  unfold recompute, bind, _bedrock_client.
  destruct (boto3_client env (client_requests w)) as [e|client]; [done|].
  pose proof (list_foundation_models_spec client (new_client w)) as Hfm.
  destruct (list_foundation_models client) as [e|resp].
  - by rewrite Hfm.
  - destruct Hfm as (fm & w2 & -> & (_ & Hq2 & _) & _).
    pose proof (list_cross_region_profiles_spec client w2) as Hxr.
    destruct (paginate_error (list_inference_profiles client)) as [e|].
    + destruct Hxr as (w' & -> & (_ & Hq3 & _)). simpl in *. congruence.
    + destruct Hxr as (xreg & w3 & -> & (_ & Hq3 & _) & _).
      simpl in *. congruence.
Qed.

Lemma recompute_invokes w client :
  boto3_client env (client_requests w) = inr client ->
  exists rest,
    upstream_calls (snd (recompute env w))
    = upstream_calls w ++ CallListFoundationModels :: rest.
Proof.
  intros Hclient.
  pose proof (recompute_spec w client Hclient) as Hrec.
  destruct (list_foundation_models client) as [e|resp].
  - destruct Hrec as (w' & -> & _ & _ & Hu). simpl.
    rewrite Hu. by exists [].
  - destruct Hrec as (fm & w1 & _ & _ & Hrec).
    destruct (paginate_error _) as [e|].
    + destruct Hrec as (w' & -> & _ & _ & Hu). simpl.
      rewrite Hu. by exists [CallListInferenceProfiles].
    + destruct Hrec as (xreg & w2 & _ & _ & _ & Hu & ->). simpl.
      rewrite Hu. by exists [CallListInferenceProfiles].
Qed.

(** ** The cache in front of it *)

Lemma build_forced w :
  _build_models_payload env true w = recompute env w.
Proof. reflexivity. Qed.

Lemma build_empty w :
  cache_data (MODELS_CACHE w) = None ->
  _build_models_payload env false w = recompute env w.
Proof.
  intros Hnone. unfold _build_models_payload, bind, get_cache. simpl.
  by rewrite Hnone.
Qed.

Lemma build_fresh w payload :
  cache_data (MODELS_CACHE w) = Some payload ->
  time_time env (clock_reads w) - cache_ts (MODELS_CACHE w)
    < CACHE_TTL_SECONDS ->
  _build_models_payload env false w = (inr payload, tick w).
Proof.
  intros Hsome Hlt. unfold _build_models_payload, bind, get_cache, _now.
  simpl. rewrite Hsome. simpl.
  by rewrite (proj2 (Z.ltb_lt _ _) Hlt).
Qed.

Lemma build_stale w payload :
  cache_data (MODELS_CACHE w) = Some payload ->
  CACHE_TTL_SECONDS
    <= time_time env (clock_reads w) - cache_ts (MODELS_CACHE w) ->
  _build_models_payload env false w = recompute env (tick w).
Proof.
  intros Hsome Hge. unfold _build_models_payload, bind, get_cache, _now.
  simpl. rewrite Hsome. simpl.
  by rewrite (proj2 (Z.ltb_ge _ _) Hge).
Qed.

(** Every call is either answered from the cache or is the recomputation
    started in [recompute_start]. *)
Lemma build_cases force w :
  if cache_hit env force w then
    exists payload,
      cache_data (MODELS_CACHE w) = Some payload
      /\ _build_models_payload env force w = (inr payload, tick w)
  else
    _build_models_payload env force w
    = recompute env (recompute_start force w).
Proof.
  unfold cache_hit, recompute_start. destruct force; simpl; [done|].
  destruct (cache_data (MODELS_CACHE w)) as [payload|] eqn:Hdata; simpl.
  - destruct (Z.ltb_spec (time_time env (clock_reads w)
                          - cache_ts (MODELS_CACHE w)) CACHE_TTL_SECONDS).
    + exists payload. split; [done|]. by apply build_fresh.
    + by eapply build_stale.
  - by apply build_empty.
Qed.

Lemma recompute_start_frame force w :
  MODELS_CACHE (recompute_start force w) = MODELS_CACHE w
  /\ clients_built (recompute_start force w) = clients_built w
  /\ upstream_calls (recompute_start force w) = upstream_calls w.
Proof. unfold recompute_start. by case_match. Qed.

Lemma recompute_start_requests force w :
  client_requests (recompute_start force w) = client_requests w.
Proof. unfold recompute_start. by case_match. Qed.

End Recompute.

(** ** Calls as a whole *)

Section Calls.

Variable env : Env.

(** A call that passes the cache by, gets its client and has its two
    listings answered returns the merged catalog and stores it with the
    time of storing. *)
Lemma build_recomputes force w client resp :
  cache_hit env force w = false ->
  boto3_client env (client_requests w) = inr client ->
  list_foundation_models client = inr resp ->
  paginate_error (list_inference_profiles client) = None ->
  exists fm w1 xreg w2,
    _list_foundation_models env client
      (new_client (recompute_start force w)) = (inr fm, w1)
    /\ _list_cross_region_profiles env client w1 = (inr xreg, w2)
    /\ ids fm = base_ids (default [] (modelSummaries resp))
    /\ ids xreg
       = profile_ids (paginate_summaries (list_inference_profiles client))
    /\ clients_built w2 = S (clients_built w)
    /\ upstream_calls w2
       = upstream_calls w
         ++ [CallListFoundationModels; CallListInferenceProfiles]
    /\ let payload :=
         {| catalog_object := "list";
            catalog_data := merge_loop (fm ++ xreg) ∅ [] |} in
       _build_models_payload env force w
       = (inr payload,
          with_cache
            {| cache_data := Some payload;
               cache_ts := time_time env (clock_reads w2) |}
            (tick w2)).
Proof.
  intros Hmiss Hclient Hfm Hpages.
  pose proof (build_cases env force w) as Hcase. rewrite Hmiss in Hcase.
  destruct (recompute_start_frame force w) as (Hc & Hb & Hu).
  rewrite <- (recompute_start_requests force w) in Hclient.
  pose proof (recompute_spec env (recompute_start force w) client Hclient)
    as Hrec.
  rewrite Hb, Hu, Hfm, Hpages in Hrec.
  destruct Hrec
    as (fm & w1 & H1 & Hids & xreg & w2 & H2 & Hidsx & Hb2 & Hu2 & Hrun).
  exists fm, w1, xreg, w2. rewrite Hcase. done.
Qed.

(** What any call does to the cache and to the upstream log. *)
Lemma build_outcome force w r w' :
  _build_models_payload env force w = (r, w') ->
  (upstream_calls w' = upstream_calls w
   /\ MODELS_CACHE w' = MODELS_CACHE w
   /\ exists payload,
        r = inr payload /\ cache_data (MODELS_CACHE w) = Some payload
        /\ cache_hit env force w = true)
  \/ (cache_hit env force w = false
      /\ ((exists e, r = inl e /\ MODELS_CACHE w' = MODELS_CACHE w)
          \/ (exists payload,
                r = inr payload
                /\ upstream_calls w' <> upstream_calls w
                /\ MODELS_CACHE w'
                   = {| cache_data := Some payload;
                        cache_ts := time_time env (pred (clock_reads w')) |}))).
Proof.
  intros Hrun.
  pose proof (build_cases env force w) as Hcase.
  destruct (cache_hit env force w).
  - destruct Hcase as (payload & Hdata & Hhit).
    rewrite Hhit in Hrun. injection Hrun as <- <-.
    left. split; [done|]. split; [done|]. by exists payload.
  - right. split; [done|].
    destruct (recompute_start_frame force w) as (Hc & Hb & Hu).
    rewrite Hcase in Hrun.
    destruct (boto3_client env (client_requests (recompute_start force w)))
      as [e|client] eqn:Hclient.
    { rewrite (recompute_refused env _ e Hclient) in Hrun.
      injection Hrun as <- <-. left. exists e. by split. }
    pose proof (recompute_spec env (recompute_start force w) client Hclient)
      as Hrec.
    destruct (list_foundation_models client) as [e|resp].
    + destruct Hrec as (w1 & Hrec & Hc1 & _ & Hu1).
      rewrite Hrec in Hrun. injection Hrun as <- <-.
      rewrite Hc1, Hc. left. eauto.
    + destruct Hrec as (fm & w1 & _ & _ & Hrec).
      destruct (paginate_error _) as [e|].
      * destruct Hrec as (w2 & Hrec & Hc2 & _ & Hu2).
        rewrite Hrec in Hrun. injection Hrun as <- <-.
        rewrite Hc2, Hc. left. eauto.
      * destruct Hrec as (xreg & w2 & _ & _ & _ & Hu2 & Hrec).
        simpl in Hrec. rewrite Hrec in Hrun. injection Hrun as <- <-.
        simpl. rewrite Hu2, Hu. right. eexists. split; [done|].
        split; [apply app_cons_neq|done].
Qed.

(** The calls that pass the cache by are those that ask for a client. *)
Lemma recomputes_iff force w :
  cache_hit env force w = false
  <-> client_requests (snd (_build_models_payload env force w))
      <> client_requests w.
Proof.
  pose proof (build_cases env force w) as Hcase.
  destruct (cache_hit env force w).
  - destruct Hcase as (payload & _ & ->). simpl. split; [done|].
    intros Hne. by destruct Hne.
  - split; [intros _|done]. rewrite Hcase.
    rewrite recompute_requests, recompute_start_requests. lia.
Qed.

(** Along every history the cache holds exactly what the last successful
    recomputation stored, or is still empty. *)
Lemma run_invariant calls : forall w last,
  run env calls = (w, last) ->
  MODELS_CACHE w
  = match last with
    | Some (payload, ts) => {| cache_data := Some payload; cache_ts := ts |}
    | None => {| cache_data := None; cache_ts := 0 |}
    end.
Proof.
  unfold run.
  induction calls as [|force calls IH] using rev_ind; intros w last Hrun.
  - simpl in Hrun. by injection Hrun as <- <-.
  - rewrite fold_left_app in Hrun. simpl in Hrun.
    destruct (fold_left (step env) calls (initial_world, None))
      as [w0 last0] eqn:Hprev.
    specialize (IH w0 last0 eq_refl).
    unfold step in Hrun.
    destruct (_build_models_payload env force w0) as [r w1] eqn:Hcall.
    injection Hrun as <- <-.
    apply build_outcome in Hcall
      as [(Hu & Hc & p & -> & _)
         |(_ & [(e & -> & Hc)|(p & -> & Hu & Hc)])].
    + rewrite decide_True by done. congruence.
    + congruence.
    + by rewrite decide_False by done.
Qed.

End Calls.

(** * The catalog's guarantees *)

(** C1.  A call that recomputes and returns gives a payload in which no two
    records have the same id.  The merge never raises: as soon as the two
    listings have returned, the call returns, whatever ids repeat in them;
    the payload's data is obtained from the base-model records followed by
    the cross-region records by dropping records only, and for every id the
    record it holds is the first one produced with that id. *)
Theorem dedup_first_wins env force w :
  cache_hit env force w = false ->
  (forall payload w',
     _build_models_payload env force w = (inr payload, w') ->
     NoDup (ids (catalog_data payload)))
  /\ (forall client fm w1 xreg w2,
        boto3_client env (client_requests w) = inr client ->
        _list_foundation_models env client
          (new_client (recompute_start force w)) = (inr fm, w1) ->
        _list_cross_region_profiles env client w1 = (inr xreg, w2) ->
        exists payload w',
          _build_models_payload env force w = (inr payload, w')
          /\ NoDup (ids (catalog_data payload))
          /\ sublist (catalog_data payload) (fm ++ xreg)
          /\ forall i,
               find (has_id i) (catalog_data payload)
               = find (has_id i) (fm ++ xreg)).
Proof.
  intros Hmiss.
  pose proof (build_cases env force w) as Hcase. rewrite Hmiss in Hcase.
  split.
  - intros payload w' Hrun. rewrite Hcase in Hrun.
    apply recompute_returns in Hrun
      as (client & fm & w1 & xreg & w2 & _ & _ & _ & -> & _).
    apply merge_loop_NoDup.
  - intros client fm w1 xreg w2 Hclient Hfm Hxr.
    rewrite <- (recompute_start_requests force w) in Hclient.
    eexists _, _. split.
    { rewrite Hcase. by eapply recompute_with_listings. }
    simpl. split; [apply merge_loop_NoDup|].
    split; [apply merge_loop_sublist|].
    intros i. rewrite merge_loop_find. by rewrite decide_False by set_solver.
Qed.

Lemma dedup_first_wins_witness :
  exists payload w',
    _build_models_payload
      (env_of (clock_from 1700000000 1) [] colliding_client)
      true initial_world = (inr payload, w')
    /\ NoDup (ids (catalog_data payload))
    /\ ids (catalog_data payload)
       = ["titan"; "nova"; "arn:nova"; "us.titan"].
Proof.
  eexists _, _. split; [vm_compute; reflexivity|]. split; [|reflexivity].
  eapply (dedup_first_wins
            (env_of (clock_from 1700000000 1) [] colliding_client)
            true initial_world); [reflexivity|vm_compute; reflexivity].
Defined.

(** C2.  In every history after which the last successful recomputation
    produced [payload] and stored the clock value [ts], a non-forced call
    that reads a clock value [now] with [now - ts < 300] returns that very
    payload and leaves the upstream alone (no client asked for, none built,
    no operation invoked); one that reads [now] with [300 <= now - ts] is
    exactly one recomputation: [boto3.client] is called once; if it raises
    the call ends there, and if it returns a client the foundation-model
    listing is invoked once and the profile listing at most once after
    it. *)
Theorem ttl_correctness env calls w payload ts :
  run env calls = (w, Some (payload, ts)) ->
  (time_time env (clock_reads w) - ts < 300 ->
   _build_models_payload env false w = (inr payload, tick w)
   /\ upstream_calls (tick w) = upstream_calls w
   /\ clients_built (tick w) = clients_built w
   /\ client_requests (tick w) = client_requests w)
  /\ (300 <= time_time env (clock_reads w) - ts ->
      _build_models_payload env false w = recompute env (tick w)
      /\ client_requests (snd (_build_models_payload env false w))
         = S (client_requests w)
      /\ (forall e,
            boto3_client env (client_requests w) = inl e ->
            _build_models_payload env false w = (inl e, refused (tick w)))
      /\ (forall client,
            boto3_client env (client_requests w) = inr client ->
            clients_built (snd (_build_models_payload env false w))
            = S (clients_built w)
            /\ exists rest,
                 upstream_calls (snd (_build_models_payload env false w))
                 = upstream_calls w ++ CallListFoundationModels :: rest
                 /\ (rest = [] \/ rest = [CallListInferenceProfiles]))).
Proof.
  intros Hrun. apply run_invariant in Hrun as Hcache.
  assert (Hdata : cache_data (MODELS_CACHE w) = Some payload)
    by (by rewrite Hcache).
  assert (Hts : cache_ts (MODELS_CACHE w) = ts) by (by rewrite Hcache).
  split.
  - intros Hlt. split; [|done].
    apply build_fresh; [done|]. by rewrite Hts.
  - intros Hge.
    assert (Hstale : _build_models_payload env false w
                     = recompute env (tick w)).
    { eapply build_stale; [done|]. by rewrite Hts. }
    split; [done|]. rewrite Hstale.
    split; [by rewrite recompute_requests|]. split.
    { intros e Hclient. by apply recompute_refused. }
    intros client Hclient.
    pose proof (recompute_spec env (tick w) client Hclient) as Hrec.
    simpl in Hrec.
    destruct (list_foundation_models client) as [e|resp].
    + destruct Hrec as (w' & -> & _ & Hb & Hu). simpl.
      split; [done|]. exists []. auto.
    + destruct Hrec as (fm & w1 & _ & _ & Hrec).
      destruct (paginate_error _) as [e|].
      * destruct Hrec as (w' & -> & _ & Hb & Hu). simpl.
        split; [done|]. exists [CallListInferenceProfiles]. auto.
      * destruct Hrec as (xreg & w2 & _ & _ & Hb & Hu & ->). simpl.
        split; [done|]. exists [CallListInferenceProfiles]. auto.
Qed.

Lemma ttl_correctness_witness :
  (* stored at 1002, next call reads 1003 *)
  _build_models_payload (claude_env 1) false (fst (run (claude_env 1) [false]))
  = (inr (claude_catalog 1000 1001), tick (fst (run (claude_env 1) [false])))
  (* stored at 1300, second call reads 1450, third call reads 1600 *)
  /\ _build_models_payload (claude_env 150) false
       (fst (run (claude_env 150) [false; false]))
     = recompute (claude_env 150)
         (tick (fst (run (claude_env 150) [false; false]))).
Proof.
  split.
  - destruct (ttl_correctness (claude_env 1) [false]
                (fst (run (claude_env 1) [false]))
                (claude_catalog 1000 1001) 1002) as [Hfresh _];
      [vm_compute; reflexivity|].
    apply Hfresh. vm_compute. reflexivity.
  - destruct (ttl_correctness (claude_env 150) [false; false]
                (fst (run (claude_env 150) [false; false]))
                (claude_catalog 1000 1150) 1300) as [_ Hstale];
      [vm_compute; reflexivity|].
    apply Hstale. vm_compute. intros Hgt. discriminate Hgt.
Defined.

(** C3.  A call that ends with an exception leaves [MODELS_CACHE] exactly as
    it found it, payload and timestamp.  A call that passes the cache by
    raises whatever the foundation-model listing raises, and otherwise
    whatever the first failing page request raises (and, before either,
    whatever [boto3.client] raises).  And after a call that returned
    [payload], a forced call that fails, then a non-forced call whose clock
    read is less than 300 past the stored timestamp, returns [payload]
    again. *)
Theorem failure_isolation env :
  (forall force w e w',
     _build_models_payload env force w = (inl e, w') ->
     MODELS_CACHE w' = MODELS_CACHE w)
  /\ (forall force w client e,
        cache_hit env force w = false ->
        boto3_client env (client_requests w) = inr client ->
        list_foundation_models client = inl e ->
        fst (_build_models_payload env force w) = inl e)
  /\ (forall force w client resp e,
        cache_hit env force w = false ->
        boto3_client env (client_requests w) = inr client ->
        list_foundation_models client = inr resp ->
        paginate_error (list_inference_profiles client) = Some e ->
        fst (_build_models_payload env force w) = inl e)
  /\ (forall force w0 payload w1 e w2,
        _build_models_payload env force w0 = (inr payload, w1) ->
        _build_models_payload env true w1 = (inl e, w2) ->
        time_time env (clock_reads w2) - cache_ts (MODELS_CACHE w1) < 300 ->
        _build_models_payload env false w2 = (inr payload, tick w2)
        /\ MODELS_CACHE w2 = MODELS_CACHE w1)
  /\ (forall force w e,
        cache_hit env force w = false ->
        boto3_client env (client_requests w) = inl e ->
        fst (_build_models_payload env force w) = inl e).
Proof.
  assert (Hfail : forall force w e w',
            _build_models_payload env force w = (inl e, w') ->
            MODELS_CACHE w' = MODELS_CACHE w).
  { intros force w e w' Hrun.
    apply build_outcome in Hrun
      as [(_ & Hc & p & ? & _)|(_ & [(e' & _ & Hc)|(p & ? & _)])];
      done. }
  split; [exact Hfail|].
  split; [|split; [|split]].
  - intros force w client e Hmiss Hclient Hfm.
    pose proof (build_cases env force w) as Hcase. rewrite Hmiss in Hcase.
    rewrite <- (recompute_start_requests force w) in Hclient.
    pose proof (recompute_spec env (recompute_start force w) client Hclient)
      as Hrec.
    rewrite Hfm in Hrec.
    destruct Hrec as (w' & Hrec & _). by rewrite Hcase, Hrec.
  - intros force w client resp e Hmiss Hclient Hfm Hpages.
    pose proof (build_cases env force w) as Hcase. rewrite Hmiss in Hcase.
    rewrite <- (recompute_start_requests force w) in Hclient.
    pose proof (recompute_spec env (recompute_start force w) client Hclient)
      as Hrec.
    rewrite Hfm, Hpages in Hrec.
    destruct Hrec as (fm & w1 & _ & _ & w' & Hrec & _).
    by rewrite Hcase, Hrec.
  - intros force w0 payload w1 e w2 Hok Hbad Hlt.
    apply Hfail in Hbad as Hsame. split; [|done].
    assert (Hdata : cache_data (MODELS_CACHE w1) = Some payload).
    { apply build_outcome in Hok
        as [(_ & Hc & p & Hp & Hd & _)|(_ & [(e' & ? & _)|(p & Hp & _ & Hc)])];
        [|done|].
      - injection Hp as ->. by rewrite Hc.
      - injection Hp as ->. by rewrite Hc. }
    apply build_fresh; rewrite Hsame; done.
  - intros force w e Hmiss Hclient.
    pose proof (build_cases env force w) as Hcase. rewrite Hmiss in Hcase.
    rewrite <- (recompute_start_requests force w) in Hclient.
    by rewrite Hcase, (recompute_refused env _ e Hclient).
Qed.

Lemma failure_isolation_witness :
  (* a good fetch, then the upstream starts throttling *)
  _build_models_payload
    (env_of (clock_from 1000 1) [claude_client] throttled_client) false
    (snd (_build_models_payload
            (env_of (clock_from 1000 1) [claude_client] throttled_client) true
            (snd (_build_models_payload
                    (env_of (clock_from 1000 1) [claude_client]
                       throttled_client) false initial_world))))
  = (inr (claude_catalog 1000 1001),
     tick
       (snd (_build_models_payload
               (env_of (clock_from 1000 1) [claude_client] throttled_client)
               true
               (snd (_build_models_payload
                       (env_of (clock_from 1000 1) [claude_client]
                          throttled_client) false initial_world)))))
  (* the second page of profiles cannot be fetched *)
  /\ fst (_build_models_payload
            (env_of (clock_from 1000 1) [] broken_page_client) false
            initial_world)
     = inl (ClientError "ServiceUnavailableException").
Proof.
  split.
  - destruct (failure_isolation
                (env_of (clock_from 1000 1) [claude_client] throttled_client))
      as (_ & _ & _ & Hseq & _).
    eapply (Hseq false initial_world (claude_catalog 1000 1001) _
              (ClientError "ThrottlingException"));
      vm_compute; reflexivity.
  - destruct (failure_isolation
                (env_of (clock_from 1000 1) [] broken_page_client))
      as (_ & _ & Hpage & _).
    eapply Hpage; vm_compute; reflexivity.
Defined.

(** C4.  In a recomputed payload the records kept from the foundation-model
    listing come first, in the order of that listing, and the records kept
    from the profile listing follow, in the order of its pages and of the
    summaries within them (identifier before ARN).  When no id occurs
    twice, nothing is dropped: the data is the one list followed by the
    other.  For the upstream with the foundation model "claude-v2" and the
    profile "us.claude-v2" with ARN "arn:aws:...:us.claude-v2" the ids are
    these three, in this order, whatever the clock shows. *)
Theorem order_preservation :
  (forall env force w client resp,
     cache_hit env force w = false ->
     boto3_client env (client_requests w) = inr client ->
     list_foundation_models client = inr resp ->
     paginate_error (list_inference_profiles client) = None ->
     exists fm w1 xreg w2 payload w',
       _list_foundation_models env client
         (new_client (recompute_start force w)) = (inr fm, w1)
       /\ _list_cross_region_profiles env client w1 = (inr xreg, w2)
       /\ _build_models_payload env force w = (inr payload, w')
       /\ ids fm = base_ids (default [] (modelSummaries resp))
       /\ ids xreg
          = profile_ids
              (paginate_summaries (list_inference_profiles client))
       /\ catalog_data payload
          = merge_loop fm ∅ []
            ++ filter (fun r => model_id r ∉ ids fm) (merge_loop xreg ∅ [])
       /\ sublist (merge_loop fm ∅ []) fm
       /\ sublist
            (filter (fun r => model_id r ∉ ids fm) (merge_loop xreg ∅ []))
            xreg
       /\ ((forall i, i ∈ ids fm -> i ∉ ids xreg) ->
           catalog_data payload
           = merge_loop fm ∅ [] ++ merge_loop xreg ∅ [])
       /\ (NoDup (ids fm ++ ids xreg) -> catalog_data payload = fm ++ xreg))
  /\ (forall clock force w,
        cache_hit (env_of clock [] claude_client) force w = false ->
        exists payload w',
          _build_models_payload (env_of clock [] claude_client) force w
          = (inr payload, w')
          /\ ids (catalog_data payload)
             = ["claude-v2"; "us.claude-v2"; "arn:aws:...:us.claude-v2"]).
Proof.
  match goal with |- ?General /\ _ => assert (Hgen : General) end.
  { intros env force w client resp Hmiss Hclient Hfm Hpages.
    destruct (build_recomputes env force w client resp Hmiss Hclient Hfm Hpages)
      as (fm & w1 & xreg & w2 & H1 & H2 & Hids & Hidsx & _ & _ & Hrun).
    simpl in Hrun. eexists fm, w1, xreg, w2, _, _.
    split; [done|]. split; [done|].
    split; [exact Hrun|]. split; [done|]. split; [done|]. simpl.
    assert (Hlayout : merge_loop (fm ++ xreg) ∅ []
              = merge_loop fm ∅ []
                ++ filter (fun r => model_id r ∉ ids fm)
                     (merge_loop xreg ∅ [])).
    { rewrite merge_loop_app. f_equal.
      rewrite (merge_loop_seen xreg ∅ (list_to_set (ids fm))).
      apply list_filter_iff. intros r. set_solver. }
    split; [exact Hlayout|]. split; [|split; [|split]].
    - apply merge_loop_sublist.
    - etransitivity; [apply sublist_filter|apply merge_loop_sublist].
    - intros Hapart. rewrite Hlayout. f_equal. apply filter_all.
      intros r [Hr _]%merge_loop_elem Hin. apply (Hapart _ Hin).
      unfold ids. apply list_elem_of_fmap. by exists r.
    - intros Hnd. apply merge_loop_id.
      + unfold ids in *. by rewrite fmap_app.
      + set_solver. }
  split; [exact Hgen|].
  intros clock force w Hmiss.
  assert (Hclient : boto3_client (env_of clock [] claude_client)
                      (client_requests w) = inr claude_client)
    by (simpl; by destruct (client_requests w)).
  destruct (Hgen (env_of clock [] claude_client) force w claude_client
              {| modelSummaries := Some [ {| modelId := Some "claude-v2" |} ] |}
              Hmiss Hclient)
    as (fm & w1 & xreg & w2 & payload & w'
        & _ & _ & Hrun & Hids & Hidsx & _ & _ & _ & _ & Hall);
    [reflexivity..|].
  exists payload, w'. split; [done|].
  simpl in Hids. cbn in Hidsx.
  rewrite Hall.
  - unfold ids in *. by rewrite fmap_app, Hids, Hidsx.
  - rewrite Hids, Hidsx. cbn. by compute_done.
Qed.

Lemma order_preservation_witness :
  exists payload w',
    _build_models_payload (claude_env 1) false initial_world
    = (inr payload, w')
    /\ ids (catalog_data payload)
       = ["claude-v2"; "us.claude-v2"; "arn:aws:...:us.claude-v2"].
Proof.
  apply (proj2 order_preservation (clock_from 1000 1) false initial_world).
  reflexivity.
Defined.

(** C5.  In a recomputed payload, for every id that a foundation-model
    record carries (in particular one that a cross-region record carries
    as well, as identifier or as ARN), the record kept under that id is the
    first foundation-model record with that id, with the [created] value
    it got; every record kept from the profile listing has an id that no
    foundation-model record carries. *)
Theorem base_precedence env force w client resp :
  cache_hit env force w = false ->
  boto3_client env (client_requests w) = inr client ->
  list_foundation_models client = inr resp ->
  paginate_error (list_inference_profiles client) = None ->
  exists fm w1 xreg w2 payload w' rest,
    _list_foundation_models env client
      (new_client (recompute_start force w)) = (inr fm, w1)
    /\ _list_cross_region_profiles env client w1 = (inr xreg, w2)
    /\ _build_models_payload env force w = (inr payload, w')
    /\ catalog_data payload = merge_loop fm ∅ [] ++ rest
    /\ sublist rest xreg
    /\ (forall r, r ∈ rest -> model_id r ∉ ids fm)
    /\ (forall i,
          i ∈ ids fm ->
          find (has_id i) (catalog_data payload) = find (has_id i) fm
          /\ exists base,
               find (has_id i) fm = Some base
               /\ base ∈ fm
               /\ model_id base = i
               /\ length (filter (fun r => model_id r = i)
                            (catalog_data payload)) = 1%nat).
Proof.
  intros Hmiss Hclient Hfm Hpages.
  destruct (build_recomputes env force w client resp Hmiss Hclient Hfm Hpages)
    as (fm & w1 & xreg & w2 & H1 & H2 & _ & _ & _ & _ & Hrun).
  simpl in Hrun.
  eexists fm, w1, xreg, w2, _, _,
    (filter (fun r => model_id r ∉ ids fm) (merge_loop xreg ∅ [])).
  split; [done|]. split; [done|]. split; [exact Hrun|]. simpl.
  split; [|split; [|split]].
  - rewrite merge_loop_app. f_equal.
    rewrite (merge_loop_seen xreg ∅ (list_to_set (ids fm))).
    apply list_filter_iff. intros r. set_solver.
  - etransitivity; [apply sublist_filter|apply merge_loop_sublist].
  - by intros r [? _]%list_elem_of_filter.
  - intros i Hi.
    assert (Hfind : find (has_id i) (merge_loop (fm ++ xreg) ∅ [])
                    = find (has_id i) fm).
    { rewrite merge_loop_find, decide_False by set_solver.
      unfold ids in Hi. apply list_elem_of_fmap in Hi as (b & -> & Hb).
      rewrite find_app_first.
      destruct (find (has_id (model_id b)) fm) as [r|] eqn:Hfnd; [done|].
      apply list_elem_of_In in Hb.
      eapply find_none in Hfnd; [|exact Hb].
      unfold has_id in Hfnd. by rewrite bool_decide_eq_false in Hfnd. }
    split; [done|].
    destruct (find (has_id i) fm) as [base|] eqn:Hbase.
    + apply find_some in Hbase as Hbase'. destruct Hbase' as [Hin Hid].
      unfold has_id in Hid. apply bool_decide_eq_true in Hid.
      exists base. split; [done|]. split; [by apply list_elem_of_In|].
      split; [done|].
      apply find_some in Hfind as [Hin' _].
      apply list_elem_of_In in Hin'. subst i.
      apply NoDup_ids_once; [apply merge_loop_NoDup|done].
    + unfold ids in Hi. apply list_elem_of_fmap in Hi as (b & -> & Hb).
      apply list_elem_of_In in Hb.
      eapply find_none in Hbase; [|exact Hb].
      unfold has_id in Hbase. by rewrite bool_decide_eq_false in Hbase.
Qed.

Lemma base_precedence_witness :
  (* "nova" is a foundation model, stamped 1700000102 when listed, and also
     the id of a profile created at 1700000000.5 *)
  exists payload w',
    _build_models_payload
      (env_of (clock_from 1700000100 1) [] colliding_client)
      true initial_world = (inr payload, w')
    /\ find (has_id "nova") (catalog_data payload)
       = Some (mkRecord "nova" 1700000102 "model" "bedrock").
Proof.
  destruct (base_precedence
              (env_of (clock_from 1700000100 1) [] colliding_client)
              true initial_world colliding_client
              {| modelSummaries :=
                   Some [ {| modelId := Some "titan" |};
                          {| modelId := Some "titan" |};
                          {| modelId := Some "nova" |} ] |})
    as (fm & w1 & xreg & w2 & payload & w' & rest
        & Hfm & _ & Hrun & _ & _ & _ & Hfirst);
    [reflexivity..|].
  exists payload, w'. split; [exact Hrun|].
  vm_compute in Hfm. injection Hfm as <- _.
  destruct (Hfirst "nova") as [-> _]; [|reflexivity].
  unfold ids. simpl. do 2 right. left.
Defined.

(** C6, as the code has it.  A forced call never consults the cache: in
    every world, whatever the cache holds, it calls [boto3.client].  If
    that raises, the call ends with the exception and nothing is invoked
    upstream.  If it returns a client, the foundation-model listing is
    invoked, and the profile listing is invoked after it exactly when the
    foundation-model listing has returned (an exception there ends the
    call at once).  A forced call that returns has invoked both, once each,
    and has overwritten the cache entry with the payload it returns and the
    clock value read when storing. *)
Theorem forced_refresh env w :
  client_requests (snd (_build_models_payload env true w))
  = S (client_requests w)
  /\ (forall e,
        boto3_client env (client_requests w) = inl e ->
        _build_models_payload env true w = (inl e, refused w))
  /\ (forall client,
        boto3_client env (client_requests w) = inr client ->
        clients_built (snd (_build_models_payload env true w))
        = S (clients_built w)
        /\ exists rest,
             upstream_calls (snd (_build_models_payload env true w))
             = upstream_calls w ++ CallListFoundationModels :: rest
             /\ (forall e,
                   list_foundation_models client = inl e ->
                   rest = []
                   /\ fst (_build_models_payload env true w) = inl e)
             /\ (forall resp,
                   list_foundation_models client = inr resp ->
                   rest = [CallListInferenceProfiles]))
  /\ (forall payload,
        fst (_build_models_payload env true w) = inr payload ->
        upstream_calls (snd (_build_models_payload env true w))
        = upstream_calls w
          ++ [CallListFoundationModels; CallListInferenceProfiles]
        /\ MODELS_CACHE (snd (_build_models_payload env true w))
           = {| cache_data := Some payload;
                cache_ts :=
                  time_time env
                    (pred (clock_reads
                             (snd (_build_models_payload env true w)))) |}).
Proof.
  rewrite build_forced.
  split; [apply recompute_requests|].
  split; [intros e Hclient; by apply recompute_refused|].
  split.
  - intros client Hclient.
    pose proof (recompute_spec env w client Hclient) as Hrec.
    destruct (list_foundation_models client) as [e|resp].
    + destruct Hrec as (w' & -> & _ & Hb & Hu). simpl.
      split; [done|]. exists []. split; [done|]. split; [|done].
      by intros ? [= <-].
    + destruct Hrec as (fm & w1 & _ & _ & Hrec).
      destruct (paginate_error _) as [e|].
      * destruct Hrec as (w' & -> & _ & Hb & Hu). simpl.
        split; [done|]. exists [CallListInferenceProfiles]. done.
      * destruct Hrec as (xreg & w2 & _ & _ & Hb & Hu & ->). simpl.
        split; [done|]. exists [CallListInferenceProfiles]. done.
  - intros payload Hret.
    destruct (recompute env w) as [r w'] eqn:Hrun. simpl in Hret. subst r.
    apply recompute_returns in Hrun
      as (client & fm & w1 & xreg & w2 & Hclient & Hfm & Hxr & _ & ->).
    simpl. split; [|done].
    pose proof (list_foundation_models_spec env client (new_client w)) as H1.
    pose proof (list_cross_region_profiles_spec env client w1) as H2.
    destruct (list_foundation_models client) as [e|resp]; [congruence|].
    destruct H1 as (fm' & w1' & H1 & (_ & _ & _ & Hu1) & _).
    rewrite Hfm in H1. injection H1 as <- <-.
    destruct (paginate_error _) as [e|].
    { destruct H2 as (w2' & H2 & _). congruence. }
    destruct H2 as (xreg' & w2' & H2 & (_ & _ & _ & Hu2) & _).
    rewrite Hxr in H2. injection H2 as <- <-.
    simpl in *. by rewrite Hu2, Hu1, <- app_assoc.
Qed.

Lemma forced_refresh_witness :
  (* forced although the entry stored at 1002 is fresh at 1003 *)
  (upstream_calls
     (snd (_build_models_payload (claude_env 1) true
             (fst (run (claude_env 1) [false]))))
   = upstream_calls (fst (run (claude_env 1) [false]))
     ++ [CallListFoundationModels; CallListInferenceProfiles]
   /\ MODELS_CACHE
        (snd (_build_models_payload (claude_env 1) true
                (fst (run (claude_env 1) [false]))))
      = {| cache_data := Some (claude_catalog 1003 1004); cache_ts := 1005 |})
  (* forced when no client can be built: nothing reaches the upstream *)
  /\ _build_models_payload
       (env_refusing (clock_from 1000 1) 1 claude_client) true initial_world
     = (inl (ValueError "Invalid endpoint: https://bedrock..amazonaws.com"),
        refused initial_world).
Proof.
  split.
  - destruct (forced_refresh (claude_env 1)
                (fst (run (claude_env 1) [false])))
      as (_ & _ & _ & Hok).
    destruct (Hok (claude_catalog 1003 1004)) as [Hcalls Hcache];
      [vm_compute; reflexivity|].
    split; [exact Hcalls|]. rewrite Hcache. vm_compute. reflexivity.
  - destruct (forced_refresh
                (env_refusing (clock_from 1000 1) 1 claude_client)
                initial_world)
      as (_ & Hrefused & _).
    apply Hrefused. reflexivity.
Defined.

(** C6, as stated, fails: when the foundation-model listing raises, the
    forced call ends there and the profile listing is never invoked. *)
Lemma forced_refresh_counterexample :
  ~ (CallListFoundationModels
       ∈ upstream_calls
           (snd (_build_models_payload
                   (env_of (clock_from 1000 1) [] throttled_client)
                   true initial_world))
     /\ CallListInferenceProfiles
          ∈ upstream_calls
              (snd (_build_models_payload
                      (env_of (clock_from 1000 1) [] throttled_client)
                      true initial_world))).
Proof.
  assert (Hcalls : upstream_calls
            (snd (_build_models_payload
                    (env_of (clock_from 1000 1) [] throttled_client)
                    true initial_world))
          = [CallListFoundationModels]) by (vm_compute; reflexivity).
  rewrite Hcalls. intros [_ Hin].
  apply list_elem_of_singleton in Hin. discriminate Hin.
Qed.

(** C7.  A foundation-model summary whose [modelId] is missing or empty is
    passed over by the loop: the list built so far and the world stay as
    they are.  A profile summary with neither a non-empty identifier nor a
    non-empty ARN appends nothing either (its timestamp is still worked
    out, which reads the clock when [createdAt] is not time-like).  Neither
    loop ever raises, and a listing made of such records only comes back
    empty. *)
Theorem malformed_records_skipped env :
  (forall m ms out w,
     modelId m = None \/ modelId m = Some "" ->
     foundation_models_loop env (m :: ms) out w
     = foundation_models_loop env ms out w)
  /\ (forall s ss out w,
        inferenceProfileId s = None \/ inferenceProfileId s = Some "" ->
        inferenceProfileArn s = None \/ inferenceProfileArn s = Some "" ->
        profile_summaries_loop env (s :: ss) out w
        = profile_summaries_loop env ss out
            (if hasattr_timestamp (createdAt s) then w else tick w))
  /\ (forall ms out w,
        exists recs w',
          foundation_models_loop env ms out w = (inr (out ++ recs), w'))
  /\ (forall ss out w,
        exists recs w',
          profile_summaries_loop env ss out w = (inr (out ++ recs), w'))
  /\ (forall ms w,
        Forall (fun m => modelId m = None \/ modelId m = Some "") ms ->
        foundation_models_loop env ms [] w = (inr [], w))
  /\ (forall ss w,
        Forall
          (fun s =>
             (inferenceProfileId s = None \/ inferenceProfileId s = Some "")
             /\ (inferenceProfileArn s = None
                 \/ inferenceProfileArn s = Some ""))
          ss ->
        exists w', profile_summaries_loop env ss [] w = (inr [], w')).
Proof.
  assert (Hbase : forall m ms out w,
     modelId m = None \/ modelId m = Some "" ->
     foundation_models_loop env (m :: ms) out w
     = foundation_models_loop env ms out w).
  { intros m ms out w [Hm|Hm]; simpl; by rewrite Hm. }
  assert (Hprof : forall s ss out w,
     inferenceProfileId s = None \/ inferenceProfileId s = Some "" ->
     inferenceProfileArn s = None \/ inferenceProfileArn s = Some "" ->
     profile_summaries_loop env (s :: ss) out w
     = profile_summaries_loop env ss out
         (if hasattr_timestamp (createdAt s) then w else tick w)).
  { intros s ss out w Hp Ha.
    assert (Hout : forall ts,
              append_profile_entries (inferenceProfileId s)
                (inferenceProfileArn s) ts out = out).
    { intros ts. unfold append_profile_entries.
      destruct Hp as [-> | ->], Ha as [-> | ->]; done. }
    cbn [profile_summaries_loop]. unfold bind.
    destruct (createdAt s); simpl; by rewrite Hout. }
  split; [exact Hbase|]. split; [exact Hprof|].
  split; [|split; [|split]].
  - intros ms out w.
    destruct (foundation_models_loop_spec env ms out w)
      as (recs & w' & Hrun & _). eauto.
  - intros ss out w.
    destruct (profile_summaries_loop_spec env ss out w)
      as (recs & w' & Hrun & _). eauto.
  - intros ms w Hall. induction Hall as [|m ms Hm _ IH]; [done|].
    by rewrite Hbase.
  - intros ss. induction ss as [|s ss IH]; intros w Hall.
    + by exists w.
    + apply Forall_cons in Hall as [[Hp Ha] Hall].
      rewrite Hprof by done. by apply IH.
Qed.

Lemma malformed_records_skipped_witness :
  foundation_models_loop (env_of (clock_from 1000 1) [] barren_client)
    [ {| modelId := None |}; {| modelId := Some "" |} ] [] initial_world
  = (inr [], initial_world)
  /\ exists w',
       profile_summaries_loop (env_of (clock_from 1000 1) [] barren_client)
         [ {| inferenceProfileId := Some "";
              inferenceProfileArn := None;
              createdAt := CreatedMissing |} ] [] initial_world
       = (inr [], w').
Proof.
  destruct (malformed_records_skipped
              (env_of (clock_from 1000 1) [] barren_client))
    as (_ & _ & _ & _ & Hbase & Hprof).
  split.
  - apply Hbase.
    constructor; [by left|]. constructor; [by right|]. constructor.
  - apply Hprof. constructor; [|constructor].
    split; [by right|by left].
Defined.

(** One turn of the loop over the summaries, in closed form. *)
Lemma profile_summaries_loop_cons env s ss out w :
  profile_summaries_loop env (s :: ss) out w
  = profile_summaries_loop env ss
      (out
       ++ append_profile_entries
            (inferenceProfileId s) (inferenceProfileArn s)
            (match createdAt s with
             | CreatedDatetime posix => int_of_float posix
             | _ => time_time env (clock_reads w)
             end) [])
      (if hasattr_timestamp (createdAt s) then w else tick w).
Proof.
  cbn [profile_summaries_loop]. unfold bind.
  destruct (createdAt s); simpl;
    by rewrite !append_profile_entries_spec, app_nil_l.
Qed.

(** What the loop appends does not depend on the list it appends to. *)
Lemma profile_summaries_loop_out env ss : forall w,
  exists recs w',
    forall out, profile_summaries_loop env ss out w = (inr (out ++ recs), w').
Proof.
  induction ss as [|s ss IH]; intros w.
  - exists [], w. intros out. simpl. by rewrite app_nil_r.
  - destruct (IH (if hasattr_timestamp (createdAt s) then w else tick w))
      as (recs & w' & Hrun).
    eexists (_ ++ recs), w'. intros out.
    by rewrite profile_summaries_loop_cons, Hrun, <- app_assoc.
Qed.

(** C8.  What the loop does with one profile summary.  Its [created_ts] is
    the whole number of seconds of [createdAt.timestamp()] when [createdAt]
    is time-like (the clock is not read), and the clock value read then
    otherwise.  With a non-empty identifier and a non-empty ARN it appends
    two records, the identifier's then the ARN's, alike in [created],
    [object] and [owned_by]; with only one of the two non-empty it appends
    exactly that one; with none it appends nothing.  These records are in
    the list returned: alone after [out] when the summary is the only one,
    between [out] and what the later summaries give otherwise; and they are
    what [_list_cross_region_profiles] returns for an upstream that delivers
    this one summary on one page. *)
Theorem cross_region_normalisation env s ss out w :
  exists created_ts w0 emitted,
    created_ts_of env (createdAt s) w = (inr created_ts, w0)
    /\ profile_summaries_loop env (s :: ss) out w
       = profile_summaries_loop env ss (out ++ emitted) w0
    /\ (forall posix,
          createdAt s = CreatedDatetime posix ->
          created_ts = int_of_float posix /\ w0 = w
          /\ (0 <= QArith_base.Qnum posix ->
              created_ts * Z.pos (QArith_base.Qden posix)
                <= QArith_base.Qnum posix
                < (created_ts + 1) * Z.pos (QArith_base.Qden posix)))
    /\ (hasattr_timestamp (createdAt s) = false ->
        created_ts = time_time env (clock_reads w) /\ w0 = tick w)
    /\ (forall p a,
          inferenceProfileId s = Some p -> p <> "" ->
          inferenceProfileArn s = Some a -> a <> "" ->
          emitted = [ mkRecord p created_ts "model" "bedrock";
                      mkRecord a created_ts "model" "bedrock" ])
    /\ (forall p,
          inferenceProfileId s = Some p -> p <> "" ->
          inferenceProfileArn s = None \/ inferenceProfileArn s = Some "" ->
          emitted = [ mkRecord p created_ts "model" "bedrock" ])
    /\ (forall a,
          inferenceProfileId s = None \/ inferenceProfileId s = Some "" ->
          inferenceProfileArn s = Some a -> a <> "" ->
          emitted = [ mkRecord a created_ts "model" "bedrock" ])
    /\ (inferenceProfileId s = None \/ inferenceProfileId s = Some "" ->
        inferenceProfileArn s = None \/ inferenceProfileArn s = Some "" ->
        emitted = [])
    /\ profile_summaries_loop env [s] out w = (inr (out ++ emitted), w0)
    /\ (exists rest w',
          profile_summaries_loop env ss [] w0 = (inr rest, w')
          /\ profile_summaries_loop env (s :: ss) out w
             = (inr (out ++ emitted ++ rest), w'))
    /\ (forall client,
          list_inference_profiles client
          = [ inr {| inferenceProfileSummaries := Some [s] |} ] ->
          _list_cross_region_profiles env client w
          = (inr emitted, logged CallListInferenceProfiles w0)).
Proof.
  assert (Htruthy : forall x, x <> "" -> str_truthy x = true)
    by (by intros [|? ?] ?).
  exists (match createdAt s with
          | CreatedDatetime posix => int_of_float posix
          | _ => time_time env (clock_reads w)
          end),
         (if hasattr_timestamp (createdAt s) then w else tick w),
         (append_profile_entries
            (inferenceProfileId s) (inferenceProfileArn s)
            (match createdAt s with
             | CreatedDatetime posix => int_of_float posix
             | _ => time_time env (clock_reads w)
             end) []).
  split; [by destruct (createdAt s)|].
  split; [apply profile_summaries_loop_cons|].
  split.
  { intros posix ->. split; [done|]. split; [done|]. intros Hnn.
    unfold int_of_float. rewrite Z.quot_div_nonneg by lia.
    pose proof (Z.mul_div_le (QArith_base.Qnum posix)
                  (Z.pos (QArith_base.Qden posix))) as Hle.
    pose proof (Z.mul_succ_div_gt (QArith_base.Qnum posix)
                  (Z.pos (QArith_base.Qden posix))) as Hgt.
    unfold Z.succ in Hgt. lia. }
  split; [by destruct (createdAt s)|].
  split; [|split; [|split; [|split; [|split; [|split]]]]].
  - unfold append_profile_entries.
    intros p a -> Hp -> Ha. by rewrite (Htruthy p Hp), (Htruthy a Ha).
  - unfold append_profile_entries.
    intros p -> Hp [-> | ->]; by rewrite (Htruthy p Hp).
  - unfold append_profile_entries.
    intros a [-> | ->] -> Ha; by rewrite (Htruthy a Ha).
  - unfold append_profile_entries. by intros [-> | ->] [-> | ->].
  - by rewrite profile_summaries_loop_cons.
  - destruct (profile_summaries_loop_out env ss
                (if hasattr_timestamp (createdAt s) then w else tick w))
      as (rest & w' & Hrun).
    exists rest, w'. split; [apply (Hrun [])|].
    by rewrite profile_summaries_loop_cons, Hrun, <- app_assoc.
  - intros client Hpages.
    unfold _list_cross_region_profiles, bind, log_call. rewrite Hpages.
    cbn [profile_pages_loop]. unfold bind. simpl default.
    rewrite profile_summaries_loop_cons. simpl.
    by destruct (createdAt s).
Qed.

Lemma cross_region_normalisation_witness :
  (* empty identifier, an ARN, created at 1700000000.5 *)
  _list_cross_region_profiles (claude_env 1)
    {| list_foundation_models := inr {| modelSummaries := None |};
       list_inference_profiles :=
         [ inr {| inferenceProfileSummaries :=
                    Some [ {| inferenceProfileId := Some "";
                              inferenceProfileArn :=
                                Some "arn:aws:...:us.claude-v2";
                              createdAt :=
                                CreatedDatetime
                                  (QArith_base.Qmake 3400000001 2) |} ] |} ] |}
    initial_world
  = (inr [ mkRecord "arn:aws:...:us.claude-v2" 1700000000 "model" "bedrock" ],
     logged CallListInferenceProfiles initial_world).
Proof.
  destruct (cross_region_normalisation (claude_env 1)
              {| inferenceProfileId := Some "";
                 inferenceProfileArn := Some "arn:aws:...:us.claude-v2";
                 createdAt :=
                   CreatedDatetime (QArith_base.Qmake 3400000001 2) |}
              [] [] initial_world)
    as (ts & w0 & emitted & _ & _ & Hdt & _ & _ & _ & Harn & _ & _ & _ & Hfun).
  etransitivity; [apply Hfun; reflexivity|].
  destruct (Hdt _ eq_refl) as (-> & -> & _).
  rewrite (Harn "arn:aws:...:us.claude-v2");
    [reflexivity|by right|reflexivity|discriminate].
Defined.

(** C9.  When the foundation-model listing and every page of the profile
    listing are answered and none of their records yields an id, a call
    that passes the cache by returns the catalog with the empty data list
    and stores it; from then on, as long as the entry is not overwritten, a
    non-forced call whose clock read is less than 300 past the stored
    timestamp returns that catalog and leaves the upstream alone. *)
Theorem empty_catalog_cached env force w client resp :
  cache_hit env force w = false ->
  boto3_client env (client_requests w) = inr client ->
  list_foundation_models client = inr resp ->
  base_ids (default [] (modelSummaries resp)) = [] ->
  paginate_error (list_inference_profiles client) = None ->
  profile_ids (paginate_summaries (list_inference_profiles client)) = [] ->
  exists w',
    _build_models_payload env force w
    = (inr {| catalog_object := "list"; catalog_data := [] |}, w')
    /\ cache_data (MODELS_CACHE w')
       = Some {| catalog_object := "list"; catalog_data := [] |}
    /\ forall later,
         MODELS_CACHE later = MODELS_CACHE w' ->
         time_time env (clock_reads later) - cache_ts (MODELS_CACHE w') < 300 ->
         _build_models_payload env false later
         = (inr {| catalog_object := "list"; catalog_data := [] |},
            tick later)
         /\ upstream_calls (tick later) = upstream_calls later
         /\ clients_built (tick later) = clients_built later
         /\ client_requests (tick later) = client_requests later.
Proof.
  intros Hmiss Hclient Hfm Hbase Hpages Hprof.
  destruct (build_recomputes env force w client resp Hmiss Hclient Hfm Hpages)
    as (fm & w1 & xreg & w2 & _ & _ & Hids & Hidsx & _ & _ & Hrun).
  rewrite Hbase in Hids. rewrite Hprof in Hidsx.
  apply fmap_nil_inv in Hids. apply fmap_nil_inv in Hidsx. subst fm xreg.
  simpl in Hrun. eexists. split; [exact Hrun|]. simpl. split; [done|].
  intros later Hsame Hlt. split; [|done].
  apply build_fresh; by rewrite Hsame.
Qed.

Lemma empty_catalog_cached_witness :
  _build_models_payload (env_of (clock_from 1000 1) [] barren_client) false
    (snd (_build_models_payload
            (env_of (clock_from 1000 1) [] barren_client) false
            initial_world))
  = (inr {| catalog_object := "list"; catalog_data := [] |},
     tick (snd (_build_models_payload
                  (env_of (clock_from 1000 1) [] barren_client) false
                  initial_world))).
Proof.
  destruct (empty_catalog_cached
              (env_of (clock_from 1000 1) [] barren_client) false
              initial_world barren_client
              {| modelSummaries :=
                   Some [ {| modelId := None |}; {| modelId := Some "" |} ] |})
    as (w' & Hrun & _ & Hlater); [reflexivity..|].
  rewrite Hrun. simpl. apply Hlater; [reflexivity|].
  vm_compute in Hrun. injection Hrun as <-. vm_compute. reflexivity.
Defined.

(** C10.  A non-forced call that finds a payload in the cache and reads a
    clock value less than 300 past the stored timestamp returns that
    payload and changes nothing but the count of clock reads: the cache
    entry, payload and timestamp, is as before. *)
Theorem cache_hit_frame env w payload :
  cache_data (MODELS_CACHE w) = Some payload ->
  time_time env (clock_reads w) - cache_ts (MODELS_CACHE w) < 300 ->
  exists w',
    _build_models_payload env false w = (inr payload, w')
    /\ MODELS_CACHE w' = MODELS_CACHE w
    /\ cache_data (MODELS_CACHE w') = Some payload
    /\ cache_ts (MODELS_CACHE w') = cache_ts (MODELS_CACHE w)
    /\ upstream_calls w' = upstream_calls w
    /\ clients_built w' = clients_built w
    /\ client_requests w' = client_requests w.
Proof.
  intros Hdata Hlt. exists (tick w).
  split; [by apply build_fresh|]. simpl. by rewrite Hdata.
Qed.

Lemma cache_hit_frame_witness :
  (* stored at 1002; the hit at 1003 leaves 1002 in place *)
  exists w',
    _build_models_payload (claude_env 1) false
      (fst (run (claude_env 1) [false]))
    = (inr (claude_catalog 1000 1001), w')
    /\ MODELS_CACHE w'
       = {| cache_data := Some (claude_catalog 1000 1001); cache_ts := 1002 |}.
Proof.
  destruct (cache_hit_frame (claude_env 1) (fst (run (claude_env 1) [false]))
              (claude_catalog 1000 1001))
    as (w' & Hrun & Hcache & _); [vm_compute; reflexivity..|].
  exists w'. split; [exact Hrun|]. rewrite Hcache. vm_compute. reflexivity.
Defined.

(** * Further properties of the module *)

(** ** The client's region *)

(** X1.  The region the client is built for is the value of [AWS_REGION]
    whenever that variable is set, even to the empty string, whether
    [AWS_DEFAULT_REGION] is set or not and whatever it holds; else the value
    of [AWS_DEFAULT_REGION] when set; else "us-east-1".  No other variable
    of the environment matters, set or unset, and the other arguments are
    the same for every environment. *)
Theorem region_resolution (environ : gmap string string) :
  (forall r,
     environ !! "AWS_REGION" = Some r ->
     region_name (_bedrock_client_args environ) = r)
  /\ (forall r,
        environ !! "AWS_REGION" = None ->
        environ !! "AWS_DEFAULT_REGION" = Some r ->
        region_name (_bedrock_client_args environ) = r)
  /\ (environ !! "AWS_REGION" = None ->
      environ !! "AWS_DEFAULT_REGION" = None ->
      region_name (_bedrock_client_args environ) = "us-east-1")
  /\ (forall k v,
        k <> "AWS_REGION" -> k <> "AWS_DEFAULT_REGION" ->
        _bedrock_client_args (<[k := v]> environ)
        = _bedrock_client_args environ
        /\ _bedrock_client_args (delete k environ)
           = _bedrock_client_args environ)
  /\ (forall r other,
        region_name
          (_bedrock_client_args
             (<["AWS_REGION" := r]>
                (<["AWS_DEFAULT_REGION" := other]> environ)))
        = r
        /\ region_name
             (_bedrock_client_args
                (<["AWS_REGION" := r]> (delete "AWS_DEFAULT_REGION" environ)))
           = r)
  /\ service_name (_bedrock_client_args environ) = "bedrock"
  /\ retries_max_attempts (_bedrock_client_args environ) = 5
  /\ retries_mode (_bedrock_client_args environ) = "standard".
Proof.
  unfold _bedrock_client_args, os_getenv. simpl.
  split; [|split; [|split; [|split; [|split; [|done]]]]].
  - by intros r ->.
  - by intros r -> ->.
  - by intros -> ->.
  - intros k v Hk1 Hk2.
    by rewrite !lookup_insert_ne, !lookup_delete_ne by done.
  - intros r other. by rewrite !lookup_insert_eq.
Qed.

Lemma region_resolution_witness :
  (* set but empty, and no default region around: no fall-back *)
  region_name (_bedrock_client_args (<["AWS_REGION" := ""]> ∅)) = ""
  /\ region_name
       (_bedrock_client_args (<["AWS_DEFAULT_REGION" := "eu-west-1"]> ∅))
     = "eu-west-1"
  /\ region_name (_bedrock_client_args (<["HOME" := "/root"]> ∅))
     = "us-east-1".
Proof.
  split; [|split].
  - destruct (region_resolution (<["AWS_REGION" := ""]> ∅)) as (Hset & _).
    apply Hset. vm_compute. reflexivity.
  - destruct (region_resolution (<["AWS_DEFAULT_REGION" := "eu-west-1"]> ∅))
      as (_ & Hdflt & _).
    apply Hdflt; vm_compute; reflexivity.
  - destruct (region_resolution ∅) as (_ & _ & Hnone & Hother & _).
    destruct (Hother "HOME" "/root") as [-> _]; [discriminate..|].
    apply Hnone; reflexivity.
Defined.

(** ** The listings, record by record *)

Lemma ticks_fields n w :
  MODELS_CACHE (ticks n w) = MODELS_CACHE w
  /\ clock_reads (ticks n w) = (n + clock_reads w)%nat
  /\ clients_built (ticks n w) = clients_built w
  /\ upstream_calls (ticks n w) = upstream_calls w.
Proof.
  unfold ticks. induction n as [|n (Hc & Hr & Hb & Hu)]; [done|].
  simpl. rewrite Hc, Hr, Hb, Hu. done.
Qed.

Lemma ticks_requests n w : client_requests (ticks n w) = client_requests w.
Proof. unfold ticks. induction n as [|n IH]; [done|]. simpl. by rewrite IH. Qed.

Lemma ticks_tick n w : ticks n (tick w) = ticks (S n) w.
Proof. unfold ticks. by rewrite Nat.iter_succ_r. Qed.

Lemma usable_nonempty v i : i ∈ usable v -> i <> "".
Proof.
  unfold usable. destruct v as [x|]; simpl; [|by intros ?%elem_of_nil].
  destruct x; simpl; [by intros ?%elem_of_nil|].
  by intros ->%list_elem_of_singleton.
Qed.

Lemma usable_length v : (length (usable v) <= 1)%nat.
Proof. unfold usable. case_match; simpl; lia. Qed.

Lemma base_ids_nonempty ms i : i ∈ base_ids ms -> i <> "".
Proof.
  unfold base_ids. induction ms as [|m ms IH]; simpl.
  - by intros ?%elem_of_nil.
  - intros [Hi|Hi]%elem_of_app; [by eapply usable_nonempty|by apply IH].
Qed.

Lemma base_ids_length ms : (length (base_ids ms) <= length ms)%nat.
Proof.
  unfold base_ids. induction ms as [|m ms IH]; simpl; [done|].
  rewrite length_app. pose proof (usable_length (modelId m)). lia.
Qed.

Section Exact.

Variable env : Env.

(** The loop over the foundation models, in closed form: one record per
    usable id, the [k]-th stamped by the [k]-th clock read. *)
Lemma foundation_models_loop_exact ms : forall out w,
  foundation_models_loop env ms out w
  = (inr (out
          ++ imap (fun k i =>
                     mkRecord i (time_time env (clock_reads w + k))
                       "model" "bedrock")
               (base_ids ms)),
     ticks (length (base_ids ms)) w).
Proof.
  induction ms as [|m ms IH]; intros out w.
  - simpl. by rewrite app_nil_r.
  - cbn [foundation_models_loop base_ids flat_map].
    destruct (modelId m) as [mid|] eqn:Hmid.
    + destruct (str_truthy mid) eqn:Htr.
      * unfold bind, _now. rewrite IH, usable_truthy by done.
        simpl app. rewrite <- app_assoc. simpl length.
        rewrite ticks_tick, Nat.add_0_r. do 3 f_equal. simpl. f_equal.
        apply imap_ext. intros k i _. simpl. do 2 f_equal. lia.
      * rewrite IH, usable_falsy by (simpl; done). done.
    + rewrite IH, usable_falsy by done. done.
Qed.

(** Splitting the summaries in two and running the loop on each part in
    turn is running it on the whole. *)
Lemma profile_summaries_loop_app ss1 : forall ss2 out w,
  profile_summaries_loop env (ss1 ++ ss2) out w
  = match profile_summaries_loop env ss1 out w with
    | (inr out1, w1) => profile_summaries_loop env ss2 out1 w1
    | (inl e, w1) => (inl e, w1)
    end.
Proof.
  induction ss1 as [|s ss1 IH]; intros ss2 out w; [done|].
  rewrite <- app_comm_cons. cbn [profile_summaries_loop]. unfold bind.
  destruct (created_ts_of env (createdAt s) w) as [[e|ts] w1]; [done|].
  apply IH.
Qed.

(** The loop over one page's summaries: what it appends is well formed,
    at most two records per summary; the clock is read once for each
    summary without a time-like [createdAt], usable or not. *)
Lemma profile_summaries_loop_exact ss : forall out w,
  exists recs w',
    profile_summaries_loop env ss out w = (inr (out ++ recs), w')
    /\ only_clock w w'
    /\ clock_reads w' = (length (clock_stamped ss) + clock_reads w)%nat
    /\ ids recs = profile_ids ss
    /\ Forall well_formed_record recs
    /\ (clock_stamped ss = [] ->
        recs = flat_map
                 (fun s => profile_entries s (posix_seconds (createdAt s)))
                 ss).
Proof.
  induction ss as [|s ss IH]; intros out w.
  - exists [], w. simpl. rewrite app_nil_r. repeat split; auto.
  - cbn [profile_summaries_loop profile_ids flat_map]. unfold bind.
    assert (Hwf : forall ts, Forall well_formed_record (profile_entries s ts)).
    { intros ts. unfold profile_entries. apply Forall_fmap, Forall_forall.
      intros i Hi. split; [|done]. simpl.
      apply elem_of_app in Hi as [Hi|Hi]; by eapply usable_nonempty. }
    assert (Hid : forall ts,
              ids (profile_entries s ts)
              = usable (inferenceProfileId s) ++ usable (inferenceProfileArn s)).
    { intros ts. unfold ids, profile_entries.
      rewrite <- list_fmap_compose. apply list_fmap_id. }
    unfold clock_stamped in *. rewrite filter_cons.
    destruct (createdAt s) as [|posix|other] eqn:Hc;
      unfold created_ts_of, _now, ret; cbv beta iota;
      rewrite append_profile_entries_spec.
    + destruct (IH (out ++ profile_entries s (time_time env (clock_reads w)))
                  (tick w))
        as (recs & w' & Hrun & Hfr & Hck & Hids & Hall & _).
      eexists (_ ++ recs), w'. rewrite Hrun, <- app_assoc.
      rewrite decide_True by done.
      split; [done|]. split; [by eapply only_clock_trans|].
      split; [rewrite Hck; simpl; lia|].
      split; [unfold ids in *; by rewrite fmap_app, Hid, Hids|].
      split; [by apply Forall_app|]. done.
    + destruct (IH (out ++ profile_entries s (int_of_float posix)) w)
        as (recs & w' & Hrun & Hfr & Hck & Hids & Hall & Hpure).
      eexists (_ ++ recs), w'. rewrite Hrun, <- app_assoc.
      rewrite decide_False by done.
      split; [done|]. split; [done|]. split; [done|].
      split; [unfold ids in *; by rewrite fmap_app, Hid, Hids|].
      split; [by apply Forall_app|].
      intros Hnone. by rewrite (Hpure Hnone).
    + destruct (IH (out ++ profile_entries s (time_time env (clock_reads w)))
                  (tick w))
        as (recs & w' & Hrun & Hfr & Hck & Hids & Hall & _).
      eexists (_ ++ recs), w'. rewrite Hrun, <- app_assoc.
      rewrite decide_True by done.
      split; [done|]. split; [by eapply only_clock_trans|].
      split; [rewrite Hck; simpl; lia|].
      split; [unfold ids in *; by rewrite fmap_app, Hid, Hids|].
      split; [by apply Forall_app|]. done.
Qed.

Lemma profile_ids_length ss : (length (profile_ids ss) <= 2 * length ss)%nat.
Proof.
  unfold profile_ids. induction ss as [|s ss IH]; simpl; [done|].
  rewrite !length_app.
  pose proof (usable_length (inferenceProfileId s)).
  pose proof (usable_length (inferenceProfileArn s)). lia.
Qed.

(** The walk over the pages is the loop over the summaries of the pages
    delivered, one after the other, ended by the first failure if any. *)
Lemma profile_pages_loop_flat pages : forall out w,
  profile_pages_loop env pages out w
  = match paginate_error pages with
    | None => profile_summaries_loop env (paginate_summaries pages) out w
    | Some e =>
        (inl e,
         snd (profile_summaries_loop env (paginate_summaries pages) out w))
    end.
Proof.
  induction pages as [|[e|page] pages IH]; intros out w; [done..|].
  cbn [paginate_error paginate_summaries profile_pages_loop]. unfold bind.
  rewrite profile_summaries_loop_app.
  destruct (profile_summaries_loop_exact
              (default [] (inferenceProfileSummaries page)) out w)
    as (recs & w1 & -> & _).
  rewrite IH. done.
Qed.

End Exact.

Lemma world_eq w w' :
  MODELS_CACHE w' = MODELS_CACHE w ->
  clock_reads w' = clock_reads w ->
  client_requests w' = client_requests w ->
  clients_built w' = clients_built w ->
  upstream_calls w' = upstream_calls w ->
  w' = w.
Proof. destruct w, w'. simpl. by intros -> -> -> -> ->. Qed.

(** X2.  When the upstream answers, [_list_foundation_models] returns one
    record per summary with a non-empty [modelId], in the order of the
    summaries and never more than there are summaries; each has a
    non-empty id, the object "model" and the owner "bedrock".  The clock is
    read once per record returned and not otherwise: the [k]-th record is
    stamped with the [k]-th clock value read by the call.  Apart from the
    log entry and these reads the world is unchanged. *)
Theorem foundation_listing_exact env client resp w :
  list_foundation_models client = inr resp ->
  exists fm,
    _list_foundation_models env client w
    = (inr fm, ticks (length fm) (logged CallListFoundationModels w))
    /\ ids fm = base_ids (default [] (modelSummaries resp))
    /\ (length fm <= length (default [] (modelSummaries resp)))%nat
    /\ forall k r,
         fm !! k = Some r ->
         model_created r = time_time env (clock_reads w + k)
         /\ well_formed_record r.
Proof.
  intros Hfm. unfold _list_foundation_models, bind, log_call.
  rewrite Hfm. simpl.
  rewrite (foundation_models_loop_exact env). simpl.
  eexists. split.
  { f_equal. by rewrite length_imap. }
  split; [|split].
  - unfold ids. rewrite fmap_imap. simpl.
    induction (base_ids _) as [|i l IH]; [done|].
    rewrite imap_cons. simpl. f_equal.
    rewrite <- IH at 2. by apply imap_ext.
  - rewrite length_imap. apply base_ids_length.
  - intros k r Hk. rewrite list_lookup_imap in Hk.
    destruct (base_ids _ !! k) as [i|] eqn:Hi; [|done].
    injection Hk as <-. split; [done|]. split; [|done]. simpl.
    eapply base_ids_nonempty, list_elem_of_lookup_2, Hi.
Qed.

Lemma foundation_listing_exact_witness :
  (* three summaries, two of them usable, clock read at 1000 and 1001 *)
  _list_foundation_models (env_of (clock_from 1000 1) [] colliding_client)
    {| list_foundation_models :=
         inr {| modelSummaries :=
                  Some [ {| modelId := Some "titan" |};
                         {| modelId := None |};
                         {| modelId := Some "nova" |} ] |};
       list_inference_profiles := [] |}
    initial_world
  = (inr [ mkRecord "titan" 1000 "model" "bedrock";
           mkRecord "nova" 1001 "model" "bedrock" ],
     ticks 2 (logged CallListFoundationModels initial_world)).
Proof.
  destruct (foundation_listing_exact
              (env_of (clock_from 1000 1) [] colliding_client)
              {| list_foundation_models :=
                   inr {| modelSummaries :=
                            Some [ {| modelId := Some "titan" |};
                                   {| modelId := None |};
                                   {| modelId := Some "nova" |} ] |};
                 list_inference_profiles := [] |}
              {| modelSummaries :=
                   Some [ {| modelId := Some "titan" |};
                          {| modelId := None |};
                          {| modelId := Some "nova" |} ] |}
              initial_world eq_refl)
    as (fm & Hrun & _).
  rewrite Hrun. vm_compute in Hrun. injection Hrun as <-. reflexivity.
Defined.

(** X3.  When every page is delivered, [_list_cross_region_profiles]
    returns well-formed records only, at most two per summary, whose ids
    are the usable identifiers and ARNs in page order.  It reads the clock
    once for every summary whose [createdAt] is not time-like, skipped or
    not, and changes nothing else but the log.  When every summary has a
    time-like [createdAt] the clock is not read at all and the records are
    a function of the upstream answer alone. *)
Theorem profile_listing_exact env client w :
  paginate_error (list_inference_profiles client) = None ->
  exists xreg w',
    _list_cross_region_profiles env client w = (inr xreg, w')
    /\ only_clock (logged CallListInferenceProfiles w) w'
    /\ clock_reads w'
       = (length (clock_stamped
                    (paginate_summaries (list_inference_profiles client)))
          + clock_reads w)%nat
    /\ ids xreg
       = profile_ids (paginate_summaries (list_inference_profiles client))
    /\ Forall well_formed_record xreg
    /\ (length xreg
        <= 2 * length (paginate_summaries (list_inference_profiles client)))%nat
    /\ (clock_stamped (paginate_summaries (list_inference_profiles client))
        = [] ->
        w' = logged CallListInferenceProfiles w
        /\ xreg
           = flat_map
               (fun s => profile_entries s (posix_seconds (createdAt s)))
               (paginate_summaries (list_inference_profiles client))).
Proof.
  intros Hpages. unfold _list_cross_region_profiles, bind, log_call.
  rewrite profile_pages_loop_flat, Hpages.
  destruct (profile_summaries_loop_exact env
              (paginate_summaries (list_inference_profiles client)) []
              (logged CallListInferenceProfiles w))
    as (recs & w' & Hrun & Hfr & Hck & Hids & Hwf & Hpure).
  exists recs, w'. simpl app in Hrun.
  split; [done|]. split; [done|]. split; [done|]. split; [done|].
  split; [done|]. split.
  - replace (length recs) with (length (ids recs))
      by (unfold ids; apply length_fmap).
    rewrite Hids. apply profile_ids_length.
  - intros Hnone. split; [|by apply Hpure].
    destruct Hfr as (Hc & Hq & Hb & Hu). apply world_eq; try done.
    by rewrite Hck, Hnone.
Qed.

Lemma profile_listing_exact_witness :
  (* two pages; one summary without a time-like createdAt *)
  exists xreg w',
    _list_cross_region_profiles
      (env_of (clock_from 1000 1) [] colliding_client) colliding_client
      initial_world = (inr xreg, w')
    /\ clock_reads w' = 1%nat
    /\ ids xreg = ["nova"; "arn:nova"; "us.titan"; "arn:nova"].
Proof.
  destruct (profile_listing_exact
              (env_of (clock_from 1000 1) [] colliding_client)
              colliding_client initial_world eq_refl)
    as (xreg & w' & Hrun & _ & Hck & Hids & _).
  exists xreg, w'. split; [exact Hrun|]. split; [exact Hck|exact Hids].
Defined.

(** X4.  How the upstream cuts its answer into pages is invisible: two
    clients whose walks deliver the same summaries in the same order and
    end the same way (all pages delivered, or the same exception) make
    [_list_cross_region_profiles] return the same result and leave the
    same world.  In particular whatever follows a failed page request is
    never looked at. *)
Theorem pages_are_transparent env client client' w :
  paginate_error (list_inference_profiles client)
  = paginate_error (list_inference_profiles client') ->
  paginate_summaries (list_inference_profiles client)
  = paginate_summaries (list_inference_profiles client') ->
  _list_cross_region_profiles env client w
  = _list_cross_region_profiles env client' w.
Proof.
  intros Herr Hsum. unfold _list_cross_region_profiles, bind, log_call.
  by rewrite !profile_pages_loop_flat, Herr, Hsum.
Qed.

Lemma pages_are_transparent_witness :
  (* the two summaries of [colliding_client] on one page instead of two *)
  _list_cross_region_profiles
    (env_of (clock_from 1000 1) [] colliding_client) colliding_client
    initial_world
  = _list_cross_region_profiles
      (env_of (clock_from 1000 1) [] colliding_client)
      {| list_foundation_models := inl (ClientError "unused");
         list_inference_profiles :=
           [ inr {| inferenceProfileSummaries :=
                      Some (paginate_summaries
                              (list_inference_profiles colliding_client)) |};
             inr {| inferenceProfileSummaries := None |} ] |}
      initial_world.
Proof. apply pages_are_transparent; reflexivity. Defined.

(** ** The process over time *)

Section Process.

Variable env : Env.

Lemma list_foundation_models_inv client w fm w' :
  _list_foundation_models env client w = (inr fm, w') ->
  Forall well_formed_record fm
  /\ w' = ticks (length fm) (logged CallListFoundationModels w)
  /\ forall k r,
       fm !! k = Some r ->
       model_created r = time_time env (clock_reads w + k).
Proof.
  unfold _list_foundation_models, bind, log_call.
  destruct (list_foundation_models client) as [e|resp]; simpl; [done|].
  rewrite (foundation_models_loop_exact env). simpl.
  intros [= <- <-]. rewrite length_imap. split; [|split; [done|]].
  - apply Forall_forall. intros r (k & Hk)%list_elem_of_lookup_1.
    rewrite list_lookup_imap in Hk.
    destruct (base_ids _ !! k) as [i|] eqn:Hi; [|done].
    injection Hk as <-. split; [|done]. simpl.
    eapply base_ids_nonempty, list_elem_of_lookup_2, Hi.
  - intros k r Hk. rewrite list_lookup_imap in Hk.
    destruct (base_ids _ !! k) as [i|]; [|done]. by injection Hk as <-.
Qed.

Lemma list_cross_region_profiles_inv client w xreg w' :
  _list_cross_region_profiles env client w = (inr xreg, w') ->
  Forall well_formed_record xreg
  /\ only_clock (logged CallListInferenceProfiles w) w'
  /\ (clock_reads w <= clock_reads w')%nat.
Proof.
  unfold _list_cross_region_profiles, bind, log_call.
  rewrite profile_pages_loop_flat.
  destruct (paginate_error _) as [e|]; [done|].
  destruct (profile_summaries_loop_exact env
              (paginate_summaries (list_inference_profiles client)) []
              (logged CallListInferenceProfiles w))
    as (recs & w1 & Hrun & Hfr & Hck & _ & Hwf & _).
  rewrite Hrun. simpl. intros [= <- <-].
  split; [done|]. split; [done|]. rewrite Hck. simpl. lia.
Qed.

(** What a call returns after passing the cache by is well formed. *)
Lemma recompute_well_formed w payload w' :
  recompute env w = (inr payload, w') -> well_formed_catalog payload.
Proof.
  intros (client & fm & w1 & xreg & w2 & _ & Hfm & Hxr & -> & _)
    %recompute_returns.
  apply list_foundation_models_inv in Hfm as (Hwf1 & _).
  apply list_cross_region_profiles_inv in Hxr as (Hwf2 & _).
  split; [done|]. split; [apply merge_loop_NoDup|]. simpl.
  apply Forall_forall. intros r [Hr _]%merge_loop_elem.
  revert r Hr. apply Forall_forall. by apply Forall_app.
Qed.

Lemma build_well_formed force w r w' :
  cache_well_formed w ->
  _build_models_payload env force w = (r, w') ->
  cache_well_formed w'
  /\ forall payload, r = inr payload -> well_formed_catalog payload.
Proof.
  intros Hinv Hrun.
  pose proof (build_cases env force w) as Hcase.
  destruct (cache_hit env force w).
  - destruct Hcase as (payload & Hdata & Hhit).
    rewrite Hhit in Hrun. injection Hrun as <- <-.
    split; [exact Hinv|]. intros ? [= <-]. by apply Hinv.
  - rewrite Hcase in Hrun.
    assert (Hret : forall payload, r = inr payload ->
                                   well_formed_catalog payload).
    { intros payload ->. by eapply recompute_well_formed. }
    split; [|done].
    destruct (recompute_start_frame force w) as (Hc & _).
    rewrite <- Hcase in Hrun.
    apply build_outcome in Hrun
      as [(_ & Hc' & _)|(_ & [(e & _ & Hc')|(p & -> & _ & Hc')])].
    + unfold cache_well_formed. by rewrite Hc'.
    + unfold cache_well_formed. by rewrite Hc'.
    + intros payload. rewrite Hc'. simpl. intros [= <-]. by apply Hret.
Qed.

Lemma serve_well_formed requests : forall w,
  cache_well_formed w ->
  Forall (fun r => forall payload, r = inr payload ->
                                   well_formed_catalog payload)
    (fst (serve env requests w))
  /\ cache_well_formed (snd (serve env requests w)).
Proof.
  induction requests as [|refresh requests IH]; intros w Hinv; simpl.
  - by split.
  - unfold list_models.
    destruct (_build_models_payload env refresh w) as [r w1] eqn:Hcall.
    destruct (build_well_formed _ _ _ _ Hinv Hcall) as [Hinv1 Hr].
    destruct (IH w1 Hinv1) as [Hrs Hinv2].
    destruct (serve env requests w1) as [rs w2]. simpl in *.
    split; [by constructor|done].
Qed.

End Process.

Section ProcessSteps.

Variable env : Env.

(** One call adds to the log nothing, or one block with the client it
    has built. *)
Lemma build_log_step force w :
  (upstream_calls (snd (_build_models_payload env force w)) = upstream_calls w
   /\ clients_built (snd (_build_models_payload env force w))
      = clients_built w)
  \/ (exists block,
        call_block block
        /\ upstream_calls (snd (_build_models_payload env force w))
           = upstream_calls w ++ block
        /\ clients_built (snd (_build_models_payload env force w))
           = S (clients_built w)).
Proof.
  pose proof (build_cases env force w) as Hcase.
  destruct (cache_hit env force w).
  - destruct Hcase as (payload & _ & ->). by left.
  - rewrite Hcase.
    destruct (recompute_start_frame force w) as (_ & Hb & Hu).
    destruct (boto3_client env (client_requests (recompute_start force w)))
      as [e|client] eqn:Hclient.
    { rewrite (recompute_refused env _ e Hclient). by left. }
    right.
    pose proof (recompute_spec env (recompute_start force w) client Hclient)
      as Hrec.
    rewrite Hb, Hu in Hrec.
    destruct (list_foundation_models client) as [e|resp].
    + destruct Hrec as (w' & -> & _ & Hb' & Hu').
      eexists. split; [by left|]. done.
    + destruct Hrec as (fm & w1 & _ & _ & Hrec).
      destruct (paginate_error _) as [e|].
      * destruct Hrec as (w' & -> & _ & Hb' & Hu').
        eexists. split; [by right|]. done.
      * destruct Hrec as (xreg & w2 & _ & _ & Hb' & Hu' & ->).
        eexists. split; [by right|]. done.
Qed.

Lemma serve_cons refresh requests w :
  serve env (refresh :: requests) w
  = (fst (_build_models_payload env refresh w)
     :: fst (serve env requests (snd (_build_models_payload env refresh w))),
     snd (serve env requests (snd (_build_models_payload env refresh w)))).
Proof.
  simpl. unfold list_models.
  destruct (_build_models_payload env refresh w) as [r w1]. simpl.
  by destruct (serve env requests w1).
Qed.

Lemma serve_length requests : forall w,
  length (fst (serve env requests w)) = length requests.
Proof.
  induction requests as [|refresh requests IH]; intros w; [done|].
  rewrite serve_cons. simpl. by rewrite IH.
Qed.

End ProcessSteps.

(** X5.  Whatever requests the fresh process gets, with whatever flags and
    whatever the upstream and the clock do, every catalog it answers with
    (recomputed or taken from the cache) has the object "list", no two
    records with the same id, and only records with a non-empty id, the
    object "model" and the owner "bedrock"; and so has the cache entry. *)
Theorem served_catalogs_well_formed env requests :
  Forall (fun r => forall payload, r = inr payload ->
                                   well_formed_catalog payload)
    (fst (serve env requests initial_world))
  /\ cache_well_formed (snd (serve env requests initial_world)).
Proof. apply serve_well_formed. by intros payload. Qed.

(** X6.  The cache entry is never cleared: once a payload is stored, the
    cache holds a payload after any further sequence of requests, failed
    refreshes included. *)
Theorem cache_never_cleared env requests w :
  is_Some (cache_data (MODELS_CACHE w)) ->
  is_Some (cache_data (MODELS_CACHE (snd (serve env requests w)))).
Proof.
  revert w. induction requests as [|refresh requests IH]; intros w Hsome;
    [done|].
  rewrite serve_cons. simpl. apply IH.
  destruct (_build_models_payload env refresh w) as [r w1] eqn:Hcall.
  simpl. apply build_outcome in Hcall
    as [(_ & -> & _)|(_ & [(e & _ & ->)|(p & _ & _ & ->)])]; done.
Qed.

Lemma cache_never_cleared_witness :
  (* a good fetch, then two forced refreshes that the upstream throttles *)
  is_Some
    (cache_data
       (MODELS_CACHE
          (snd (serve
                  (env_of (clock_from 1000 1) [claude_client] throttled_client)
                  [true; true]
                  (snd (serve
                          (env_of (clock_from 1000 1) [claude_client]
                             throttled_client)
                          [false] initial_world)))))).
Proof.
  apply cache_never_cleared. vm_compute. by eexists.
Defined.

(** X7.  The upstream log of the process is a sequence of blocks, one per
    client built: either the foundation-model listing alone (it raised) or
    the foundation-model listing followed by the profile listing.  So the
    profile listing is never invoked without the foundation-model listing
    just before it, never twice in a row, and there are never more blocks
    than requests. *)
Theorem upstream_log_discipline env requests :
  exists blocks,
    upstream_calls (snd (serve env requests initial_world)) = concat blocks
    /\ Forall call_block blocks
    /\ clients_built (snd (serve env requests initial_world)) = length blocks
    /\ (length blocks <= length requests)%nat.
Proof.
  assert (Hgen : forall w,
    exists blocks,
      upstream_calls (snd (serve env requests w))
      = upstream_calls w ++ concat blocks
      /\ Forall call_block blocks
      /\ clients_built (snd (serve env requests w))
         = (clients_built w + length blocks)%nat
      /\ (length blocks <= length requests)%nat).
  { induction requests as [|refresh requests IH]; intros w.
    - exists []. simpl. rewrite app_nil_r. repeat split; [constructor|lia|lia].
    - rewrite serve_cons. simpl.
      destruct (IH (snd (_build_models_payload env refresh w)))
        as (blocks & Hu & Hall & Hb & Hlen).
      destruct (build_log_step env refresh w)
        as [(Hu1 & Hb1)|(block & Hblock & Hu1 & Hb1)].
      + exists blocks. rewrite Hu, Hb, Hu1, Hb1. repeat split; [done|lia].
      + exists (block :: blocks). rewrite Hu, Hb, Hu1, Hb1. simpl.
        rewrite <- app_assoc. repeat split; [by constructor|lia|lia]. }
  destruct (Hgen initial_world) as (blocks & Hu & Hall & Hb & Hlen).
  exists blocks. by rewrite Hu, Hb.
Qed.

(** X8.  Failures are not remembered.  While the cache is empty every
    request, forced or not, starts a recomputation: a run of requests that
    all fail calls [boto3.client] once per request, whether it is that call
    or a listing that fails, and leaves the cache empty. *)
Theorem failures_not_cached env requests w :
  cache_data (MODELS_CACHE w) = None ->
  Forall (fun r => exists e, r = inl e) (fst (serve env requests w)) ->
  client_requests (snd (serve env requests w))
  = (client_requests w + length requests)%nat
  /\ MODELS_CACHE (snd (serve env requests w)) = MODELS_CACHE w.
Proof.
  revert w. induction requests as [|refresh requests IH]; intros w Hnone Hall.
  - simpl. split; [lia|done].
  - rewrite serve_cons in *. simpl in *.
    apply Forall_cons in Hall as [(e & He) Hall].
    assert (Hq : client_requests (snd (_build_models_payload env refresh w))
                 = S (client_requests w)).
    { destruct refresh.
      - rewrite build_forced. apply recompute_requests.
      - rewrite (build_empty env w Hnone). apply recompute_requests. }
    destruct (_build_models_payload env refresh w) as [r w1] eqn:Hcall.
    simpl in *. subst r.
    apply build_outcome in Hcall
      as [(_ & _ & p & ? & _)|(_ & [(e' & _ & Hc)|(p & ? & _)])];
      [done| |done].
    destruct (IH w1) as [Hb Hcache]; [by rewrite Hc|done|].
    rewrite Hb, Hq, Hcache, Hc. split; [lia|done].
Qed.

Lemma failures_not_cached_witness :
  (* the constructor raises twice, then the upstream throttles *)
  client_requests
    (snd (serve (env_refusing (clock_from 1000 1) 2 throttled_client)
            [false; true; false] initial_world))
  = 3%nat.
Proof.
  apply (failures_not_cached
           (env_refusing (clock_from 1000 1) 2 throttled_client)
           [false; true; false] initial_world); [reflexivity|].
  vm_compute. repeat constructor; by eexists.
Defined.

(** X9.  A burst of non-forced requests on a stored payload, each reading
    a clock value less than 300 past the stored timestamp, is answered
    with that payload every time and costs nothing upstream: the world
    after the burst differs only by one clock read per request. *)
Theorem burst_served_from_cache env w payload n :
  cache_data (MODELS_CACHE w) = Some payload ->
  (forall k, (k < n)%nat ->
             time_time env (clock_reads w + k) - cache_ts (MODELS_CACHE w)
             < CACHE_TTL_SECONDS) ->
  serve env (repeat false n) w = (repeat (inr payload) n, ticks n w).
Proof.
  revert w. induction n as [|n IH]; intros w Hdata Hfresh; [done|].
  cbn [repeat]. rewrite serve_cons.
  rewrite (build_fresh env w payload Hdata).
  - simpl. rewrite IH; [by rewrite ticks_tick|done|].
    intros k Hk. simpl. specialize (Hfresh (S k)).
    rewrite Nat.add_succ_r in Hfresh. apply Hfresh. lia.
  - specialize (Hfresh 0%nat). rewrite Nat.add_0_r in Hfresh.
    apply Hfresh. lia.
Qed.

Lemma burst_served_from_cache_witness :
  (* stored at 1100; the burst reads 1150, 1200, 1250, 1300, 1350 *)
  serve (claude_env 50) (repeat false 5)
    (snd (serve (claude_env 50) [false] initial_world))
  = (repeat (inr (claude_catalog 1000 1050)) 5,
     ticks 5 (snd (serve (claude_env 50) [false] initial_world))).
Proof.
  apply burst_served_from_cache; [reflexivity|].
  intros k Hk. vm_compute clock_reads.
  unfold claude_env, env_of, clock_from, CACHE_TTL_SECONDS. simpl time_time.
  vm_compute cache_ts. lia.
Defined.

(** ** More on the merge *)

Lemma merge_loop_ids items : forall seen i,
  i ∈ ids (merge_loop items seen []) <-> i ∈ ids items /\ i ∉ seen.
Proof.
  unfold ids. induction items as [|item items IH]; intros seen i.
  - simpl. split; [by intros ?%elem_of_nil|by intros [?%elem_of_nil _]].
  - rewrite merge_loop_cons. case_decide as Hin.
    + rewrite IH, fmap_cons, elem_of_cons. naive_solver.
    + rewrite !fmap_cons, !elem_of_cons, IH.
      rewrite not_elem_of_union, not_elem_of_singleton.
      destruct (decide (i = model_id item)); naive_solver.
Qed.

(** X10.  The merge loop is idempotent, and merging the two listings is the
    same as merging what is left of each after it has been merged on its
    own: running the loop again on its result, or on parts already rid of
    their repetitions, changes nothing. *)
Theorem merge_idempotent (fm xreg : list CanonicalModelRecord) :
  merge_loop (merge_loop (fm ++ xreg) ∅ []) ∅ [] = merge_loop (fm ++ xreg) ∅ []
  /\ merge_loop (merge_loop fm ∅ [] ++ merge_loop xreg ∅ []) ∅ []
     = merge_loop (fm ++ xreg) ∅ [].
Proof.
  assert (Hidem : forall l (seen : gset string),
            merge_loop (merge_loop l seen []) seen [] = merge_loop l seen []).
  { intros l seen. apply merge_loop_id; [apply merge_loop_NoDup|].
    by intros i [_ ?]%merge_loop_ids. }
  split; [apply Hidem|].
  rewrite !merge_loop_app, Hidem. f_equal.
  assert (Hset : list_to_set (ids (merge_loop fm ∅ [])) ∪ (∅ : gset string)
                 = list_to_set (ids fm) ∪ ∅).
  { apply set_eq. intros i.
    rewrite !elem_of_union, !elem_of_list_to_set, merge_loop_ids.
    set_solver. }
  rewrite Hset.
  rewrite (merge_loop_seen (merge_loop xreg ∅ []) ∅ (list_to_set (ids fm))).
  rewrite Hidem.
  by rewrite <- (merge_loop_seen xreg ∅ (list_to_set (ids fm))).
Qed.

(** X11.  The ids of a recomputed catalog are exactly the non-empty
    [modelId]s of the foundation-model listing and the non-empty
    identifiers and ARNs of the profile pages: none is lost, none is made
    up, each occurs once.  So the catalog has as many records as there are
    distinct such ids, at most one per foundation-model summary plus two
    per profile summary. *)
Theorem catalog_ids_exact env force w client resp :
  cache_hit env force w = false ->
  boto3_client env (client_requests w) = inr client ->
  list_foundation_models client = inr resp ->
  paginate_error (list_inference_profiles client) = None ->
  exists payload w',
    _build_models_payload env force w = (inr payload, w')
    /\ (forall i,
          i ∈ ids (catalog_data payload)
          <-> i ∈ base_ids (default [] (modelSummaries resp))
              \/ i ∈ profile_ids
                     (paginate_summaries (list_inference_profiles client)))
    /\ length (catalog_data payload)
       = size (list_to_set
                 (base_ids (default [] (modelSummaries resp))
                  ++ profile_ids
                       (paginate_summaries (list_inference_profiles client)))
               : gset string)
    /\ (length (catalog_data payload)
        <= length (default [] (modelSummaries resp))
           + 2 * length (paginate_summaries
                           (list_inference_profiles client)))%nat.
Proof.
  intros Hmiss Hclient Hfm Hpages.
  destruct (build_recomputes env force w client resp Hmiss Hclient Hfm Hpages)
    as (fm & w1 & xreg & w2 & _ & _ & Hids & Hidsx & _ & _ & Hrun).
  simpl in Hrun. eexists _, _. split; [exact Hrun|]. simpl.
  assert (Hall : ids (fm ++ xreg)
                 = base_ids (default [] (modelSummaries resp))
                   ++ profile_ids
                        (paginate_summaries (list_inference_profiles client)))
    by (unfold ids in *; by rewrite fmap_app, Hids, Hidsx).
  split; [|split].
  - intros i. rewrite merge_loop_ids, Hall, elem_of_app. set_solver.
  - rewrite <- Hall.
    replace (length (merge_loop (fm ++ xreg) ∅ []))
      with (length (ids (merge_loop (fm ++ xreg) ∅ [])))
      by (unfold ids; apply length_fmap).
    rewrite <- (size_list_to_set (C:=gset string))
      by apply merge_loop_NoDup.
    f_equal. apply set_eq. intros i.
    rewrite !elem_of_list_to_set, merge_loop_ids. set_solver.
  - pose proof (sublist_length _ _ (merge_loop_sublist (fm ++ xreg) ∅)) as Hle.
    rewrite length_app in Hle.
    replace (length fm) with (length (ids fm)) in Hle
      by (unfold ids; apply length_fmap).
    replace (length xreg) with (length (ids xreg)) in Hle
      by (unfold ids; apply length_fmap).
    rewrite Hids, Hidsx in Hle.
    pose proof (base_ids_length (default [] (modelSummaries resp))).
    pose proof (profile_ids_length
                  (paginate_summaries (list_inference_profiles client))).
    lia.
Qed.

Lemma catalog_ids_exact_witness :
  (* seven usable ids upstream, four of them distinct *)
  exists payload w',
    _build_models_payload
      (env_of (clock_from 1000 1) [] colliding_client) true initial_world
    = (inr payload, w')
    /\ length (catalog_data payload) = 4%nat.
Proof.
  destruct (catalog_ids_exact
              (env_of (clock_from 1000 1) [] colliding_client)
              true initial_world colliding_client
              {| modelSummaries :=
                   Some [ {| modelId := Some "titan" |};
                          {| modelId := Some "titan" |};
                          {| modelId := Some "nova" |} ] |})
    as (payload & w' & Hrun & _ & Hlen & _); [reflexivity..|].
  exists payload, w'. split; [exact Hrun|]. rewrite Hlen.
  vm_compute. reflexivity.
Defined.

(** ** Time stamps *)

(** X12.  Under a clock that never runs backwards, every record that a
    successful recomputation gets from the foundation-model listing is
    stamped no earlier than the clock value at which the call starts and no
    later than the timestamp the call stores in the cache: the entry is
    never older than the records it holds. *)
Theorem base_stamps_bracketed env force w client resp :
  clock_monotone env ->
  cache_hit env force w = false ->
  boto3_client env (client_requests w) = inr client ->
  list_foundation_models client = inr resp ->
  paginate_error (list_inference_profiles client) = None ->
  exists fm w1 payload w',
    _list_foundation_models env client
      (new_client (recompute_start force w)) = (inr fm, w1)
    /\ _build_models_payload env force w = (inr payload, w')
    /\ forall r,
         r ∈ fm ->
         time_time env (clock_reads w) <= model_created r
         /\ model_created r <= cache_ts (MODELS_CACHE w').
Proof.
  intros Hmono Hmiss Hclient Hfm Hpages.
  destruct (build_recomputes env force w client resp Hmiss Hclient Hfm Hpages)
    as (fm & w1 & xreg & w2 & H1 & H2 & _ & _ & _ & _ & Hrun).
  simpl in Hrun. eexists fm, w1, _, _.
  split; [exact H1|]. split; [exact Hrun|]. simpl.
  apply list_foundation_models_inv in H1 as (_ & Hw1 & Hstamp).
  apply list_cross_region_profiles_inv in H2 as (_ & _ & Hle).
  destruct (ticks_fields (length fm)
              (logged CallListFoundationModels
                 (new_client (recompute_start force w))))
    as (_ & Hck & _).
  rewrite <- Hw1 in Hck. simpl in Hck.
  assert (Hstart : (clock_reads w <= clock_reads (recompute_start force w))%nat).
  { unfold recompute_start. case_match; simpl; lia. }
  intros r (k & Hk)%list_elem_of_lookup_1.
  apply lookup_lt_Some in Hk as Hlt.
  rewrite (Hstamp k r Hk). simpl. split; apply Hmono; lia.
Qed.

Lemma base_stamps_bracketed_witness :
  (* call started at 1000, record stamped 1000, entry stored at 1002 *)
  exists fm w1 payload w',
    _list_foundation_models (claude_env 1) claude_client
      (new_client initial_world) = (inr fm, w1)
    /\ _build_models_payload (claude_env 1) false initial_world
       = (inr payload, w')
    /\ forall r,
         r ∈ fm ->
         1000 <= model_created r
         /\ model_created r <= cache_ts (MODELS_CACHE w').
Proof.
  apply (base_stamps_bracketed (claude_env 1) false initial_world
           claude_client
           {| modelSummaries := Some [ {| modelId := Some "claude-v2" |} ] |});
    [|reflexivity..].
  intros a b Hab. unfold claude_env, env_of, clock_from. simpl. lia.
Defined.

(** ** Forced calls and the cache *)

Section CacheBlind.

Variable env : Env.

Lemma ticks_with_cache n c w : ticks n (with_cache c w) = with_cache c (ticks n w).
Proof.
  unfold ticks. induction n as [|n IH]; [done|]. simpl. by rewrite IH.
Qed.

Lemma profile_summaries_loop_with_cache ss : forall out c w,
  profile_summaries_loop env ss out (with_cache c w)
  = (fst (profile_summaries_loop env ss out w),
     with_cache c (snd (profile_summaries_loop env ss out w))).
Proof.
  induction ss as [|s ss IH]; intros out c w; [done|].
  cbn [profile_summaries_loop]. unfold bind.
  destruct (createdAt s); unfold created_ts_of, _now, ret; cbv beta iota.
  - apply (IH _ c (tick w)).
  - apply IH.
  - apply (IH _ c (tick w)).
Qed.

Lemma list_foundation_models_with_cache client c w :
  _list_foundation_models env client (with_cache c w)
  = (fst (_list_foundation_models env client w),
     with_cache c (snd (_list_foundation_models env client w))).
Proof.
  unfold _list_foundation_models, bind, log_call.
  destruct (list_foundation_models client) as [e|resp]; simpl; [done|].
  rewrite !(foundation_models_loop_exact env). simpl.
  f_equal. apply (ticks_with_cache _ c (logged CallListFoundationModels w)).
Qed.

Lemma list_cross_region_profiles_with_cache client c w :
  _list_cross_region_profiles env client (with_cache c w)
  = (fst (_list_cross_region_profiles env client w),
     with_cache c (snd (_list_cross_region_profiles env client w))).
Proof.
  unfold _list_cross_region_profiles, bind, log_call.
  rewrite !profile_pages_loop_flat.
  pose proof (profile_summaries_loop_with_cache
                (paginate_summaries (list_inference_profiles client)) [] c
                (logged CallListInferenceProfiles w)) as Hloop.
  change (with_cache c (logged CallListInferenceProfiles w))
    with (logged CallListInferenceProfiles (with_cache c w)) in Hloop.
  rewrite Hloop. by destruct (paginate_error _).
Qed.

End CacheBlind.

(** X13.  A forced call is blind to the cache: started in two worlds that
    differ in the cache entry only, it gives the same answer; when it
    succeeds it leaves the very same world, and when it fails the two
    worlds it leaves still differ in the cache entry only. *)
Theorem forced_call_blind_to_cache env c w :
  fst (_build_models_payload env true (with_cache c w))
  = fst (_build_models_payload env true w)
  /\ (forall payload,
        fst (_build_models_payload env true w) = inr payload ->
        _build_models_payload env true (with_cache c w)
        = _build_models_payload env true w)
  /\ (forall e,
        fst (_build_models_payload env true w) = inl e ->
        snd (_build_models_payload env true (with_cache c w))
        = with_cache c (snd (_build_models_payload env true w))).
Proof.
  rewrite !build_forced. unfold recompute, bind, _bedrock_client.
  change (client_requests (with_cache c w)) with (client_requests w).
  destruct (boto3_client env (client_requests w)) as [e|client];
    [simpl; by repeat split|].
  change (new_client (with_cache c w)) with (with_cache c (new_client w)).
  rewrite list_foundation_models_with_cache.
  destruct (_list_foundation_models env _ (new_client w)) as [[e|fm] w1];
    simpl; [by repeat split|].
  rewrite list_cross_region_profiles_with_cache.
  destruct (_list_cross_region_profiles env _ w1) as [[e|xreg] w2];
    simpl; by repeat split.
Qed.

Lemma forced_call_blind_to_cache_witness :
  (* forced on the fresh process, and forced with an entry put in the cache *)
  _build_models_payload (claude_env 1) true
    (with_cache {| cache_data := Some (claude_catalog 1 2); cache_ts := 999 |}
       initial_world)
  = _build_models_payload (claude_env 1) true initial_world.
Proof.
  apply (forced_call_blind_to_cache (claude_env 1) _ initial_world)
    with (payload := claude_catalog 1000 1001).
  vm_compute. reflexivity.
Defined.

(** X14.  Nothing stale is ever served: a call that returns a payload
    without having invoked the upstream is a non-forced call that found
    that payload in the cache and read a clock value less than 300 past the
    stored timestamp; and so is any call, whatever its outcome, that ends
    without having called [boto3.client]. *)
Theorem only_fresh_entries_served env force w r w' :
  _build_models_payload env force w = (r, w') ->
  (exists payload, r = inr payload /\ upstream_calls w' = upstream_calls w)
  \/ client_requests w' = client_requests w ->
  force = false
  /\ time_time env (clock_reads w) - cache_ts (MODELS_CACHE w)
     < CACHE_TTL_SECONDS
  /\ exists payload,
       cache_data (MODELS_CACHE w) = Some payload /\ r = inr payload.
Proof.
  intros Hrun Hquiet.
  pose proof (recomputes_iff env force w) as Hiff.
  pose proof (build_cases env force w) as Hcase.
  rewrite Hrun in Hiff. simpl in Hiff.
  destruct (cache_hit env force w) eqn:Hhit.
  - destruct Hcase as (payload & Hdata & Hcall).
    rewrite Hcall in Hrun. injection Hrun as <- _.
    unfold cache_hit in Hhit.
    apply andb_true_iff in Hhit as [[Hforce _]%andb_true_iff Hlt].
    split; [by destruct force|]. split; [by apply Z.ltb_lt|].
    by exists payload.
  - exfalso. destruct Hquiet as [(payload & -> & Hlog)|Hreq].
    + apply build_outcome in Hrun
        as [(_ & _ & p & _ & _ & Hhit')
           |(_ & [(e & ? & _)|(p & _ & Hne & _)])];
        [congruence|done|done].
    + by destruct (proj1 Hiff eq_refl).
Qed.

Lemma only_fresh_entries_served_witness :
  (* stored at 1002, served at 1003 *)
  time_time (claude_env 1)
    (clock_reads (snd (serve (claude_env 1) [false] initial_world)))
  - cache_ts (MODELS_CACHE (snd (serve (claude_env 1) [false] initial_world)))
  < CACHE_TTL_SECONDS.
Proof.
  eapply (only_fresh_entries_served (claude_env 1) false
            (snd (serve (claude_env 1) [false] initial_world)));
    [apply surjective_pairing|].
  right. vm_compute. reflexivity.
Defined.
